(** * A Rocq model of the GdogTAK BLE decoding and btsnoop tooling

    Shallow embedding of the pure parts of
    - [src/scripts/bridge.py]: [decode_varint], [decode_sint32],
      [semicircles_to_degrees] and [parse_ble_notification];
    - [src/tools/btsnoop_compare.py]: [parse_btsnoop], [detect_sessions],
      [CMD_LABELS] and [extract_command].

    Python [bytes] are lists of [Z] in [0, 255]; Python [int] is [Z];
    Python [float] is IEEE binary64, modelled by the (axiom free)
    [spec_float] of the Standard Library with [prec = 53] and
    [emax = 1024]. Python exceptions are modelled with the [Exc] result
    type below. *)

From Stdlib Require Import ZArith Lia String Ascii Bool List.
From Stdlib Require Import Floats.SpecFloat.
Import ListNotations.
Open Scope Z_scope.

(** ** Python exceptions *)

Inductive exn : Type :=
| OverflowError.

Inductive Exc (A : Type) : Type :=
| Ret (a : A)
| Raise (e : exn).
Arguments Ret {A} a.
Arguments Raise {A} e.

Definition exc_bind {A B : Type} (m : Exc A) (k : A -> Exc B) : Exc B :=
  match m with
  | Ret a => k a
  | Raise e => Raise e
  end.

Notation "x <- m ;; k" := (exc_bind m (fun x => k))
  (at level 61, m at next level, right associativity).

(** ** Python floats (IEEE binary64) *)

Module Py.

Definition prec : Z := 53.
Definition emax : Z := 1024.

Definition float := spec_float.

(** A float literal denoting an integer that binary64 represents exactly. *)
Definition lit (z : Z) : float := binary_normalize prec emax z 0 false.

(** [float(n)] for a Python [int]: rounded to nearest, ties to even;
    [OverflowError] ("int too large to convert to float") when the
    rounded value is not finite. This is the conversion Python applies to
    the [int] operand of [int * float] and [int / float]. *)
Definition float_of_int (n : Z) : Exc float :=
  match binary_normalize prec emax n 0 false with
  | S754_infinity _ => Raise OverflowError
  | f => Ret f
  end.

Definition fmul (x y : float) : float := SFmul prec emax x y.
Definition fdiv (x y : float) : float := SFdiv prec emax x y.
Definition fle (x y : float) : bool := SFleb x y.
Definition flt (x y : float) : bool := SFltb x y.

End Py.

(** ** [src/scripts/bridge.py] : varints, zig-zag, semicircles *)

(** The [while offset + consumed < len(data)] loop of [decode_varint],
    run on the bytes [data[offset:]]. *)
Fixpoint decode_varint_loop (bs : list Z) (result shift consumed : Z) : Z * Z :=
  match bs with
  | [] => (result, consumed)
  | byte :: rest =>
      let result := Z.lor result (Z.shiftl (Z.land byte 127) shift) in
      let consumed := consumed + 1 in
      if Z.land byte 128 =? 0 then (result, consumed)
      else decode_varint_loop rest result (shift + 7) consumed
  end.

(** [decode_varint(data, offset)] returns [(value, bytes_consumed)]. *)
Definition decode_varint (data : list Z) (offset : nat) : Z * Z :=
  decode_varint_loop (skipn offset data) 0 0 0.

(** [decode_sint32(varint) = (varint >> 1) ^ -(varint & 1)]. *)
Definition decode_sint32 (varint : Z) : Z :=
  Z.lxor (Z.shiftr varint 1) (- Z.land varint 1).

(** [semicircles_to_degrees(sc) = sc * (180.0 / 2147483648.0)]. *)
Definition semicircles_to_degrees (sc : Z) : Exc Py.float :=
  f <- Py.float_of_int sc ;;
  Ret (Py.fmul f (Py.fdiv (Py.lit 180) (Py.lit 2147483648))).

(** ** [parse_ble_notification] *)

Definition DEVICE_HANDHELD : Z := 40.   (* 0x28 *)
Definition DEVICE_COLLAR : Z := 53.     (* 0x35 *)

(** The [DogPosition] dataclass; the optional fields keep their default
    [None] in every position the parser builds. *)
Record DogPosition : Type := mkDogPosition {
  lat : Py.float;
  lon : Py.float;
  timestamp : Z;
  altitude : option Py.float;
  speed : option Py.float;
  heading : option Py.float
}.

(** [data[i]]; every read below is in bounds, the default is never used. *)
Definition byte_at (data : list Z) (i : nat) : Z := nth i data 0.

(** [range(n)] for a Python [int] [n] ([range] of a negative bound is empty). *)
Definition py_range (n : Z) : list nat := seq 0 (Z.to_nat n).

(** The collar marker test [data[i] == 0x02 and data[i+1] == DEVICE_COLLAR
    and data[i+2] == 0x01]. *)
Definition collar_marker_at (data : list Z) (i : nat) : bool :=
  (byte_at data i =? 2) && (byte_at data (i + 1) =? DEVICE_COLLAR)
  && (byte_at data (i + 2) =? 1).

(** [for i in range(min(len(data) - 3, 20))]: [is_collar]. *)
Definition is_collar (data : list Z) : bool :=
  existsb (collar_marker_at data)
    (py_range (Z.min (Z.of_nat (length data) - 3) 20)).

(** The coordinate block marker [0A 0C 08] at [j]. *)
Definition coord_marker_at (data : list Z) (j : nat) : bool :=
  (byte_at data j =? 10) && (byte_at data (j + 1) =? 12)
  && (byte_at data (j + 2) =? 8).

(** [-90 <= lat_deg <= 90 and -180 <= lon_deg <= 180]; the bounds are
    integers that binary64 represents exactly, so Python's mixed
    [float]/[int] comparison is the float comparison. *)
Definition in_range (lat_deg lon_deg : Py.float) : bool :=
  Py.fle (Py.lit (-90)) lat_deg && Py.fle lat_deg (Py.lit 90)
  && Py.fle (Py.lit (-180)) lon_deg && Py.fle lon_deg (Py.lit 180).

(** The body of the coordinate loop for one [j]: [Ret None] is
    [continue] (or no marker at [j]), [Ret (Some p)] is [return p]. *)
Definition coord_candidate (data : list Z) (j : nat) : Exc (option DogPosition) :=
  if coord_marker_at data j then
    let '(lat_val, lat_len) := decode_varint data (j + 3) in
    let lat_signed := decode_sint32 lat_val in
    let lon_offset := Z.of_nat j + 3 + lat_len in
    if (Z.of_nat (length data) <=? lon_offset)
       || negb (byte_at data (Z.to_nat lon_offset) =? 16) then Ret None
    else
      let '(lon_val, lon_len) := decode_varint data (Z.to_nat lon_offset + 1) in
      let lon_signed := decode_sint32 lon_val in
      lat_deg <- semicircles_to_degrees lat_signed ;;
      lon_deg <- semicircles_to_degrees lon_signed ;;
      if negb (in_range lat_deg lon_deg) then Ret None
      else
        let ts_offset := lon_offset + lon_len + 1 in
        let ts :=
          if (ts_offset <? Z.of_nat (length data))
             && (byte_at data (Z.to_nat ts_offset) =? 24)
          then fst (decode_varint data (Z.to_nat ts_offset + 1))
          else 0 in
        Ret (Some (mkDogPosition lat_deg lon_deg ts None None None))
  else Ret None.

(** [for j in range(...)]: the first candidate that returns wins. *)
Fixpoint coord_scan (data : list Z) (js : list nat) : Exc (option DogPosition) :=
  match js with
  | [] => Ret None
  | j :: js' =>
      r <- coord_candidate data j ;;
      match r with
      | Some p => Ret (Some p)
      | None => coord_scan data js'
      end
  end.

Definition parse_ble_notification (data : list Z) : Exc (option DogPosition) :=
  if Z.of_nat (length data) <? 40 then Ret None
  else if negb (is_collar data) then Ret None
  else coord_scan data (py_range (Z.of_nat (length data) - 15)).

(** ** [src/tools/btsnoop_compare.py] *)

Open Scope string_scope.

(** [f"{b:02X}"] for a byte [b] (two upper-case hexadecimal digits). *)
Definition hex_digit (n : Z) : ascii :=
  match String.get (Z.to_nat n) "0123456789ABCDEF" with
  | Some c => c
  | None => "0"%char
  end.

Definition fmt_02X (b : Z) : string :=
  String (hex_digit (b / 16)) (String (hex_digit (b mod 16)) EmptyString).

(** [CMD_LABELS], in the order of the source; its keys are distinct. *)
Definition CMD_LABELS : list ((Z * Z) * string) := [
  ((2, 8), "POLL_CONFIG"); ((2, 9), "CONFIG"); ((2, 10), "CONFIG_0A");
  ((2, 11), "CONFIG_0B"); ((2, 12), "CONFIG_0C"); ((2, 13), "CONFIG_0D");
  ((2, 14), "CONFIG_0E"); ((2, 16), "CMD_10"); ((2, 17), "COLLAR_SLOT");
  ((2, 18), "CMD_12"); ((2, 19), "CMD_13"); ((2, 20), "CMD_14");
  ((2, 21), "CMD_15"); ((2, 22), "CONFIG_16"); ((2, 23), "CMD_17");
  ((2, 24), "CMD_18"); ((2, 25), "CMD_19"); ((2, 26), "CMD_1A");
  ((2, 27), "CMD_1B"); ((2, 28), "CMD_1C"); ((2, 29), "POS_QUERY");
  ((2, 30), "CMD_1E"); ((2, 31), "CMD_1F"); ((2, 32), "CMD_20");
  ((2, 41), "RESP_29"); ((2, 42), "CMD_2A"); ((2, 43), "CMD_2B");
  ((2, 44), "CMD_2C"); ((2, 48), "CMD_30"); ((2, 49), "CMD_31");
  ((2, 50), "CMD_32"); ((2, 51), "CMD_33"); ((2, 52), "CMD_34");
  ((2, 53), "COLLAR_RELAY"); ((2, 54), "CMD_36"); ((2, 55), "CMD_37");
  ((2, 56), "CMD_38"); ((2, 57), "CMD_39"); ((2, 58), "CMD_3A");
  ((2, 59), "CMD_3B"); ((2, 60), "POSITION_3C"); ((2, 61), "CMD_3D");
  ((2, 62), "CMD_3E"); ((2, 64), "CMD_40"); ((2, 65), "CMD_41");
  ((2, 66), "CMD_42"); ((2, 67), "CMD_43"); ((2, 68), "DEVICE_REG");
  ((2, 69), "CMD_45"); ((2, 80), "CMD_50"); ((2, 81), "CMD_51");
  ((2, 82), "DEVICE_LIST"); ((2, 83), "CMD_53"); ((2, 84), "CMD_54");
  ((2, 85), "CMD_55"); ((2, 96), "CMD_60"); ((2, 112), "CMD_70");
  ((2, 113), "CMD_71"); ((2, 114), "CMD_72"); ((2, 115), "CMD_73");
  ((2, 116), "CMD_74"); ((2, 117), "CMD_75"); ((2, 118), "CMD_76");
  ((2, 119), "CMD_77"); ((2, 120), "CMD_78"); ((2, 121), "CMD_79");
  ((2, 122), "POSITION_7A"); ((2, 123), "CMD_7B"); ((0, 0), "KEEPALIVE");
  ((1, 64), "HANDSHAKE")].

Definition key_eqb (k k' : Z * Z) : bool :=
  Z.eqb (fst k) (fst k') && Z.eqb (snd k) (snd k').

(** [dict.get(key, default)]. *)
Fixpoint dict_get (d : list ((Z * Z) * string)) (key : Z * Z) (default : string)
  : string :=
  match d with
  | [] => default
  | (k, v) :: d' => if key_eqb k key then v else dict_get d' key default
  end.

(** The 4-tuple [(label, is_continuation_frag, cmd_tuple_or_none,
    frag_info_str)] returned by [extract_command]. *)
Definition command_info : Type := (string * bool * option (Z * Z) * string)%type.

Definition extract_command (data : list Z) : command_info :=
  match data with
  | [] | [_] => ("TOO_SHORT", false, None, "")
  | first_byte :: second_byte :: payload =>
      let is_high_bit := negb (Z.eqb (Z.land first_byte 128) 0) in
      let frag_str :=
        "[0x" ++ fmt_02X first_byte ++ " 0x" ++ fmt_02X second_byte ++ "]" in
      match payload with
      | [] => ("EMPTY_HDR", false, None, frag_str)
      | p0 :: _ =>
          match payload with
          | 0 :: cmd_cat :: cmd_id :: _ =>
              let label := dict_get CMD_LABELS (cmd_cat, cmd_id)
                             ("CMD_" ++ fmt_02X cmd_cat ++ "_" ++ fmt_02X cmd_id) in
              let label := if is_high_bit then "FRAG>" ++ label else label in
              (label, false, Some (cmd_cat, cmd_id), frag_str)
          | _ =>
              if is_high_bit
              then ("FRAG_DATA[0x" ++ fmt_02X p0 ++ "]", true, None, frag_str)
              else ("DATA[0x" ++ fmt_02X p0 ++ "]", false, None, frag_str)
          end
      end
  end.

Close Scope string_scope.

(** *** [parse_btsnoop] *)

(** Big-endian unsigned integer of a byte string ([struct] ['>I'], ['>Q']). *)
Definition be_uint (bs : list Z) : Z := fold_left (fun acc b => acc * 256 + b) bs 0.

(** Little-endian unsigned 16-bit integer ([struct] ['<H']). *)
Definition le_u16 (bs : list Z) : Z := be_uint (rev bs).

(** [bs[a:b]]. *)
Definition slice (bs : list Z) (a b : nat) : list Z := firstn (b - a) (skipn a bs).

(** [BTSNOOP_EPOCH + timedelta(microseconds=ts_us)]: a [datetime] is kept as
    its offset in microseconds from [BTSNOOP_EPOCH] (2000-01-01 UTC); the
    addition raises [OverflowError] outside [datetime]'s range, years 1 to
    9999 (2000-01-01 to 10000-01-01 is 2921940 days). *)
Definition DATETIME_MAX_US : Z := 2921940 * 86400 * 1000000.
Definition DATETIME_MIN_US : Z := - 730119 * 86400 * 1000000.

Definition add_epoch (ts_us : Z) : Exc Z :=
  if (DATETIME_MIN_US <=? ts_us) && (ts_us <? DATETIME_MAX_US) then Ret ts_us
  else Raise OverflowError.

(** The packet dictionaries of [parse_btsnoop]. *)
Record packet : Type := mkPacket {
  ptype : string;
  ts_dt : Z;
  ts_us : Z;
  handle : Z;
  opcode : Z;
  pdata : list Z;
  is_received : bool;
  raw_size : nat
}.

(** The filters and the packet built from one record's [data]. *)
Definition att_packet (ts_dt ts_us flags : Z) (data : list Z) : option packet :=
  let is_received := Z.eqb (Z.land flags 1) 1 in
  if (length data <? 10)%nat then None
  else if negb (Z.eqb (byte_at data 0) 2) then None
  else if negb (Z.eqb (le_u16 (slice data 7 9)) 4) then None
  else
    let att_opcode := byte_at data 9 in
    let mk ty :=
      if (length data <? 12)%nat then None
      else
        let att_data := skipn 12 data in
        Some (mkPacket ty ts_dt ts_us (le_u16 (slice data 10 12)) att_opcode
                att_data is_received (length att_data)) in
    if Z.eqb att_opcode 18 || Z.eqb att_opcode 82 then mk "write"%string
    else if Z.eqb att_opcode 27 then mk "notification"%string
    else None.

(** The [while True] record loop over the bytes left after the file
    header; each turn consumes at least 24 bytes, so [fuel = length rest]
    turns are enough. *)
Fixpoint read_records (fuel : nat) (rest : list Z) : Exc (list packet) :=
  match fuel with
  | O => Ret []
  | S fuel' =>
      let rec_hdr := firstn 24 rest in
      if (length rec_hdr <? 24)%nat then Ret []
      else
        let incl_len := be_uint (slice rec_hdr 4 8) in
        let flags := be_uint (slice rec_hdr 8 12) in
        let ts_us := be_uint (slice rec_hdr 16 24) in
        let data := firstn (Z.to_nat incl_len) (skipn 24 rest) in
        if (length data <? Z.to_nat incl_len)%nat then Ret []
        else
          ts_dt <- add_epoch ts_us ;;
          let rest' := skipn (24 + Z.to_nat incl_len) rest in
          match att_packet ts_dt ts_us flags data with
          | Some p => ps <- read_records fuel' rest' ;; Ret (p :: ps)
          | None => read_records fuel' rest'
          end
  end.

(** [parse_btsnoop(filepath)] on a file with contents [contents]: the lines
    it prints and the packet list it returns. *)
Definition parse_btsnoop (filepath : string) (contents : list Z)
  : Exc (list string * list packet) :=
  let header := firstn 16 contents in
  if (length header <? 16)%nat then
    Ret (["ERROR: File too short for header: " ++ filepath]%string, [])
  else
    ps <- read_records (length contents) (skipn 16 contents) ;;
    Ret ([], ps).

(** *** [detect_sessions] *)

Definition SESSION_GAP_SECONDS : Z := 30.

(** [gap = (ts_i - ts_prev) / 1_000_000.0; gap > SESSION_GAP_SECONDS]. *)
Definition gap_exceeds (ts_prev ts_i : Z) : Exc bool :=
  diff <- Py.float_of_int (ts_i - ts_prev) ;;
  let gap := Py.fdiv diff (Py.lit 1000000) in
  Ret (Py.flt (Py.lit SESSION_GAP_SECONDS) gap).

(** [for i in range(1, len(packets))], with [prev = packets[i-1]]. *)
Fixpoint sessions_loop (prev : packet) (rest : list packet) (i session_start : nat)
  (sessions : list (nat * nat)) : Exc (list (nat * nat) * nat) :=
  match rest with
  | [] => Ret (sessions, session_start)
  | p :: rest' =>
      b <- gap_exceeds (ts_us prev) (ts_us p) ;;
      if b then sessions_loop p rest' (S i) i (sessions ++ [(session_start, i - 1)%nat])
      else sessions_loop p rest' (S i) session_start sessions
  end.

Definition detect_sessions (packets : list packet) : Exc (list (nat * nat)) :=
  match packets with
  | [] => Ret []
  | p0 :: rest =>
      r <- sessions_loop p0 rest 1 0 [] ;;
      let '(sessions, session_start) := r in
      Ret (sessions ++ [(session_start, length packets - 1)%nat])
  end.

(** ** Encoders used by the spec's round-trip properties *)

(** The groups-of-7-bits varint encoding the spec describes: 7 data bits per
    byte, low-order group first, bit 7 set on every byte but the last.
    [fuel] is the number of bytes after the first. *)
Fixpoint encode_varint_aux (fuel : nat) (v : Z) : list Z :=
  match fuel with
  | O => [v]
  | S fuel' =>
      if v <? 128 then [v]
      else Z.lor (Z.land v 127) 128 :: encode_varint_aux fuel' (Z.shiftr v 7)
  end.

Definition encode_varint (v : Z) : list Z :=
  encode_varint_aux (Z.to_nat (Z.log2 v / 7)) v.

(** The zig-zag encoding of a signed 32-bit integer,
    [(v << 1) ^ (v >> 31)]. *)
Definition encode_zigzag32 (v : Z) : Z := Z.lxor (Z.shiftl v 1) (Z.shiftr v 31).

(** ** The coordinate block at a marker start [j]

    The pieces of [parse_ble_notification]'s loop body, named so that the
    scan can be described block by block. *)

Definition lat_varint (data : list Z) (j : nat) : Z * Z := decode_varint data (j + 3).

Definition lon_offset_at (data : list Z) (j : nat) : Z :=
  Z.of_nat j + 3 + snd (lat_varint data j).

(** The marker is at [j] and a [0x10] byte follows the latitude varint. *)
Definition structurally_valid (data : list Z) (j : nat) : bool :=
  coord_marker_at data j
  && (lon_offset_at data j <? Z.of_nat (length data))
  && (byte_at data (Z.to_nat (lon_offset_at data j)) =? 16).

Definition lon_varint (data : list Z) (j : nat) : Z * Z :=
  decode_varint data (Z.to_nat (lon_offset_at data j) + 1).

(** The latitude and longitude of the block in degrees, [None] when a
    conversion raises [OverflowError]. *)
Definition block_degrees (data : list Z) (j : nat) : option (Py.float * Py.float) :=
  match semicircles_to_degrees (decode_sint32 (fst (lat_varint data j))),
        semicircles_to_degrees (decode_sint32 (fst (lon_varint data j))) with
  | Ret a, Ret b => Some (a, b)
  | _, _ => None
  end.

(** Structurally valid and in range. *)
Definition block_valid (data : list Z) (j : nat) : bool :=
  structurally_valid data j
  && match block_degrees data j with
     | Some (a, b) => in_range a b
     | None => false
     end.

Definition block_timestamp (data : list Z) (j : nat) : Z :=
  let ts_offset := lon_offset_at data j + snd (lon_varint data j) + 1 in
  if (ts_offset <? Z.of_nat (length data)) && (byte_at data (Z.to_nat ts_offset) =? 24)
  then fst (decode_varint data (Z.to_nat ts_offset + 1))
  else 0.

Definition block_position (data : list Z) (j : nat) : option DogPosition :=
  match block_degrees data j with
  | Some (a, b) => Some (mkDogPosition a b (block_timestamp data j) None None None)
  | None => None
  end.

(** No [OverflowError] at [j]: when the block is structurally valid, both
    coordinates convert to [float]. *)
Definition converts (data : list Z) (j : nat) : Prop :=
  structurally_valid data j = true -> block_degrees data j <> None.

(** ** Sessions as index ranges *)

(** [range(s, e + 1)], the packet indices of the session [(s, e)]. *)
Definition session_indices (r : nat * nat) : list nat :=
  let '(s, e) := r in seq s (S e - s).

(** Packet indices [a] and [b] lie in one session of [ss]. *)
Definition same_session (ss : list (nat * nat)) (a b : nat) : Prop :=
  exists s e, In (s, e) ss /\ (s <= a <= e)%nat /\ (s <= b <= e)%nat.

(** [packets[i]['ts_us']]. *)
Definition ts_at (ps : list packet) (i : nat) : Z := nth i (map ts_us ps) 0.

(** A timestamp [parse_btsnoop] can produce: [BTSNOOP_EPOCH + timedelta]
    did not overflow. *)
Definition ts_in_range (p : packet) : Prop :=
  DATETIME_MIN_US <= ts_us p < DATETIME_MAX_US.

(** The gap decisions of the loop of [detect_sessions], one per [i] in
    [range(1, len(packets))]. *)
Fixpoint gaps (prev : packet) (rest : list packet) : Exc (list bool) :=
  match rest with
  | [] => Ret []
  | p :: rest' =>
      b <- gap_exceeds (ts_us prev) (ts_us p) ;;
      bs <- gaps p rest' ;;
      Ret (b :: bs)
  end.

(** The sessions cut by the decisions [bs], the first one taken at index
    [i], in a session opened at [start]. *)
Fixpoint session_ranges (start i : nat) (bs : list bool) : list (nat * nat) :=
  match bs with
  | [] => [(start, i - 1)%nat]
  | b :: bs' =>
      if b then (start, i - 1)%nat :: session_ranges i (S i) bs'
      else session_ranges start (S i) bs'
  end.

(** A packet with the given microsecond timestamp. *)
Definition packet_at (t : Z) : packet := mkPacket "write" t t 0 0 [] false 0.

(** Packets at 0 s, 1 s, 40 s and 41 s. *)
Definition session_example : list packet := map packet_at [0; 1000000; 40000000; 41000000].

(** ** [src/scripts/bridge.py] : CoT generation and the notification handler *)

(** The exceptions of this part of the bridge: [OverflowError] from the
    parser, [ValueError] from [datetime.replace], and the [OSError] a
    socket [send] may raise. *)
Inductive py_exception : Type :=
| PyOverflowError
| PyValueError
| PyOSError.

Definition of_exn (e : exn) : py_exception :=
  match e with
  | OverflowError => PyOverflowError
  end.

Inductive Res (A : Type) : Type :=
| Ok (a : A)
| Err (e : py_exception).
Arguments Ok {A} a.
Arguments Err {A} e.

(** A [datetime]; [datetime.now(timezone.utc)] always has
    [0 <= second <= 59]. *)
Record datetime : Type := mkDatetime {
  dt_year : Z;
  dt_month : Z;
  dt_day : Z;
  dt_hour : Z;
  dt_minute : Z;
  dt_second : Z;
  dt_microsecond : Z
}.

Definition valid_second (now : datetime) : Prop := 0 <= dt_second now <= 59.

(** [d.replace(second=s)]: [ValueError] unless [0 <= s <= 59]. *)
Definition datetime_replace_second (d : datetime) (s : Z) : Res datetime :=
  if (0 <=? s) && (s <=? 59) then
    Ok (mkDatetime (dt_year d) (dt_month d) (dt_day d) (dt_hour d) (dt_minute d) s
          (dt_microsecond d))
  else Err PyValueError.

Definition DOG_CALLSIGN : string := "K9-ROVER"%string.
Definition DOG_UID : string := "GARMIN-TT25-001"%string.
Definition DOG_TEAM : string := "CCVFD-SAR"%string.
Definition DOG_ROLE : string := "SAR Canine"%string.

Section Bridge.

Open Scope string_scope.

(** [t.strftime("%Y-%m-%dT%H:%M:%S.000Z")] and [f"{x:.7f}"], the library
    formatting the XML uses. *)
Variable strftime_iso : datetime -> string.
Variable fmt_7f : Py.float -> string.

Let q : string := String "034"%char EmptyString.
Let nl : string := String "010"%char EmptyString.

(** [generate_cot_xml(position, callsign, uid)] at the clock reading
    [now]. *)
Definition generate_cot_xml (position : DogPosition) (callsign uid : string)
  (now : datetime) : Res string :=
  let time_str := strftime_iso now in
  match datetime_replace_second now (dt_second now + 30) with
  | Err e => Err e
  | Ok stale =>
      let stale_str := strftime_iso stale in
      Ok ("<?xml version=" ++ q ++ "1.0" ++ q ++ " encoding=" ++ q ++ "UTF-8" ++ q
          ++ "?>" ++ nl ++
          "<event version=" ++ q ++ "2.0" ++ q ++ " " ++ nl ++
          "       uid=" ++ q ++ uid ++ q ++ " " ++ nl ++
          "       type=" ++ q ++ "a-f-G-U-C-I" ++ q ++ " " ++ nl ++
          "       time=" ++ q ++ time_str ++ q ++ " " ++ nl ++
          "       start=" ++ q ++ time_str ++ q ++ " " ++ nl ++
          "       stale=" ++ q ++ stale_str ++ q ++ " " ++ nl ++
          "       how=" ++ q ++ "m-g" ++ q ++ ">" ++ nl ++
          "    <point lat=" ++ q ++ fmt_7f (lat position) ++ q ++ " " ++ nl ++
          "           lon=" ++ q ++ fmt_7f (lon position) ++ q ++ " " ++ nl ++
          "           hae=" ++ q ++ "0" ++ q ++ " " ++ nl ++
          "           ce=" ++ q ++ "10.0" ++ q ++ " " ++ nl ++
          "           le=" ++ q ++ "10.0" ++ q ++ "/>" ++ nl ++
          "    <detail>" ++ nl ++
          "        <contact callsign=" ++ q ++ callsign ++ q ++ "/>" ++ nl ++
          "        <remarks>SAR K9 - Garmin TT25 Collar</remarks>" ++ nl ++
          "        <__group name=" ++ q ++ DOG_TEAM ++ q ++ " role=" ++ q ++ DOG_ROLE
          ++ q ++ "/>" ++ nl ++
          "        <track course=" ++ q ++ "0" ++ q ++ " speed=" ++ q ++ "0" ++ q
          ++ "/>" ++ nl ++
          "        <precisionlocation altsrc=" ++ q ++ "GPS" ++ q ++ " geopointsrc="
          ++ q ++ "GPS" ++ q ++ "/>" ++ nl ++
          "    </detail>" ++ nl ++
          "</event>")
  end.

(** The fields of a [GarminAlphaBridge] and of its [TAKConnection] that
    the handler reads or writes: whether [ssl_sock] is set, the messages
    sent on it, [last_position] and [position_count]. *)
Record bridge : Type := mkBridge {
  tak_connected : bool;
  tak_sent : list string;
  last_position : option DogPosition;
  position_count : Z
}.

(** [TAKConnection.send_cot(cot_xml)]; [send_ok] is whether the socket's
    [send] succeeds. *)
Definition send_cot (b : bridge) (cot_xml : string) (send_ok : bool) : Res bridge :=
  if tak_connected b then
    if send_ok then
      Ok (mkBridge (tak_connected b) (tak_sent b ++ [cot_xml]) (last_position b)
            (position_count b))
    else Err PyOSError
  else Ok b.

(** [GarminAlphaBridge.handle_notification(sender, data)] at the clock
    reading [now]: the bridge afterwards (its attributes are updated in
    place, so the updates made before an exception stay) and the
    exception that escapes, if any. The lines it prints are not part of
    the model. *)
Definition handle_notification (b : bridge) (data : list Z) (now : datetime)
  (send_ok : bool) : bridge * option py_exception :=
  match parse_ble_notification data with
  | Raise e => (b, Some (of_exn e))
  | Ret None => (b, None)
  | Ret (Some position) =>
      let b1 := mkBridge (tak_connected b) (tak_sent b) (Some position)
                  (position_count b + 1) in
      match generate_cot_xml position DOG_CALLSIGN DOG_UID now with
      | Err e => (b1, Some e)
      | Ok cot =>
          match send_cot b1 cot send_ok with
          | Ok b2 => (b2, None)
          | Err _ => (b1, None)
          end
      end
  end.

End Bridge.

(** ** [src/tools/btsnoop_compare.py] : [format_hex] and the helpers of [main] *)

Section BtsnoopMain.

Open Scope string_scope.

(** [bytes.hex()] writes each byte as two lower-case hexadecimal digits. *)
Definition hex_digit_lower (n : Z) : ascii :=
  match String.get (Z.to_nat n) "0123456789abcdef" with
  | Some c => c
  | None => "0"%char
  end.

Definition byte_hex (b : Z) : string :=
  String (hex_digit_lower (b / 16)) (String (hex_digit_lower (b mod 16)) EmptyString).

Definition bytes_hex (bs : list Z) : string := String.concat "" (map byte_hex bs).

(** [data[:m]]: a negative [m] counts from the end. *)
Definition py_prefix (data : list Z) (m : Z) : list Z :=
  if (0 <=? m)%Z then firstn (Z.to_nat m) data
  else firstn (Z.to_nat (Z.of_nat (length data) + m)) data.

(** [str(n)] of a Python [int]. *)
Fixpoint digits_N (fuel : nat) (n : N) (acc : string) : string :=
  match fuel with
  | O => acc
  | S fuel' =>
      let acc' := String (ascii_of_N (48 + N.modulo n 10)) acc in
      if N.ltb n 10 then acc' else digits_N fuel' (N.div n 10) acc'
  end.

Definition py_str_Z (z : Z) : string :=
  let n := Z.to_N (Z.abs z) in
  let ds := digits_N (S (N.to_nat (N.size n))) n "" in
  if (z <? 0)%Z then "-" ++ ds else ds.

(** [[s[i:i+2] for i in range(0, len(s), 2)]]. *)
Definition hex_pairs (s : string) : list string :=
  map (fun i => substring (2 * i) 2 s) (seq 0 ((String.length s + 1) / 2)).

(** [format_hex(data, max_bytes)]. *)
Definition format_hex (data : list Z) (max_bytes : Z) : string :=
  let hex_str := bytes_hex (py_prefix data max_bytes) in
  let spaced := String.concat " " (hex_pairs hex_str) in
  if (max_bytes <? Z.of_nat (length data))%Z then
    spaced ++ " ... (+" ++ py_str_Z (Z.of_nat (length data) - max_bytes) ++ " bytes)"
  else spaced.

(** [(pkt['ts_us'] - t0) / 1_000_000.0]. *)
Definition offset_seconds (ts t0 : Z) : Exc Py.float :=
  d <- Py.float_of_int (ts - t0) ;;
  Ret (Py.fdiv d (Py.lit 1000000)).

(** [f"{cmd[0]:02X}_{cmd[1]:02X}"]. *)
Definition cmd_key (c0 c1 : Z) : string := fmt_02X c0 ++ "_" ++ fmt_02X c1.

(** A [dict] with [str] keys, in insertion order. *)
Fixpoint sdict_get {V : Type} (d : list (string * V)) (k : string) : option V :=
  match d with
  | [] => None
  | (k', v) :: d' => if String.eqb k' k then Some v else sdict_get d' k
  end.

(** [d[k] = v]: an existing key keeps its place, a new key goes last. *)
Fixpoint sdict_set {V : Type} (d : list (string * V)) (k : string) (v : V)
  : list (string * V) :=
  match d with
  | [] => [(k, v)]
  | (k', v') :: d' => if String.eqb k' k then (k', v) :: d' else (k', v') :: sdict_set d' k v
  end.

Definition sdict_mem {V : Type} (d : list (string * V)) (k : string) : bool :=
  match sdict_get d k with
  | Some _ => true
  | None => false
  end.

(** [cmd_counts, cmd_first_seen, total, frag_data_count, data_count]. *)
Definition window_stats : Type :=
  (list (string * Z) * list (string * Py.float) * Z * Z * Z)%type.

(** The loop of [analyze_notifications_in_window]. *)
Fixpoint analyze_loop (notifs : list packet) (t0 : Z) (window_sec : Py.float)
  (cmd_counts : list (string * Z)) (cmd_first_seen : list (string * Py.float))
  (total frag_data_count data_count : Z) : Exc window_stats :=
  match notifs with
  | [] => Ret (cmd_counts, cmd_first_seen, total, frag_data_count, data_count)
  | pkt :: rest =>
      offset <- offset_seconds (ts_us pkt) t0 ;;
      if Py.flt window_sec offset then
        Ret (cmd_counts, cmd_first_seen, total, frag_data_count, data_count)
      else
        let total := total + 1 in
        let '(label, is_cont, cmd, frag_info) := extract_command (pdata pkt) in
        if is_cont then
          analyze_loop rest t0 window_sec cmd_counts cmd_first_seen total
            (frag_data_count + 1) data_count
        else
          match cmd with
          | Some (c0, c1) =>
              let key := cmd_key c0 c1 in
              let n := match sdict_get cmd_counts key with Some n => n | None => 0 end in
              let cmd_counts := sdict_set cmd_counts key (n + 1) in
              let cmd_first_seen :=
                if sdict_mem cmd_first_seen key then cmd_first_seen
                else sdict_set cmd_first_seen key offset in
              analyze_loop rest t0 window_sec cmd_counts cmd_first_seen total
                frag_data_count data_count
          | None =>
              analyze_loop rest t0 window_sec cmd_counts cmd_first_seen total
                frag_data_count (data_count + 1)
          end
  end.

(** [analyze_notifications_in_window(notifs, t0, window_sec, session_name)];
    [session_name] is not used. *)
Definition analyze_notifications_in_window (notifs : list packet) (t0 : Z)
  (window_sec : Py.float) (session_name : string) : Exc window_stats :=
  analyze_loop notifs t0 window_sec [] [] 0 0 0.

(** [cmd == target_cmd] for [cmd] a tuple or [None]. *)
Definition cmd_eqb (cmd : option (Z * Z)) (target : Z * Z) : bool :=
  match cmd with
  | Some (a, b) => (a =? fst target)%Z && (b =? snd target)%Z
  | None => false
  end.

(** The loop of [count_cmd_in_timewindow]. *)
Fixpoint count_loop (notifs : list packet) (t0 : Z) (target_cmd : Z * Z)
  (window_sec : Py.float) (count : Z) : Exc Z :=
  match notifs with
  | [] => Ret count
  | pkt :: rest =>
      offset <- offset_seconds (ts_us pkt) t0 ;;
      if Py.flt window_sec offset then Ret count
      else
        let '(label, is_cont, cmd, frag_info) := extract_command (pdata pkt) in
        count_loop rest t0 target_cmd window_sec
          (if cmd_eqb cmd target_cmd then count + 1 else count)
  end.

(** [count_cmd_in_timewindow(notifs, t0, target_cmd, window_sec)]. *)
Definition count_cmd_in_timewindow (notifs : list packet) (t0 : Z) (target_cmd : Z * Z)
  (window_sec : Py.float) : Exc Z :=
  count_loop notifs t0 target_cmd window_sec 0.

(** The value of an upper-case hexadecimal digit, the inverse of
    [hex_digit] on [0 .. 15]. *)
Definition hex_digit_value (c : ascii) : Z :=
  match String.index 0 (String c EmptyString) "0123456789ABCDEF" with
  | Some n => Z.of_nat n
  | None => 0
  end.

(** [cmd in target_cmds], for a list of command tuples; [None] is in no such list. *)
Definition cmd_in (cmd : option (Z * Z)) (target_cmds : list (Z * Z)) : bool :=
  existsb (cmd_eqb cmd) target_cmds.

(** [find_first_cmd_notification(notifs, t0, target_cmds)]: [None] stands for
    the tuple [(None, None, None, None)]. *)
Fixpoint find_first_cmd_notification (notifs : list packet) (t0 : Z)
  (target_cmds : list (Z * Z))
  : Exc (option (Py.float * packet * string * option (Z * Z))) :=
  match notifs with
  | [] => Ret None
  | pkt :: rest =>
      let '(label, is_cont, cmd, frag_info) := extract_command (pdata pkt) in
      if cmd_in cmd target_cmds then
        offset <- offset_seconds (ts_us pkt) t0 ;;
        Ret (Some (offset, pkt, label, cmd))
      else find_first_cmd_notification rest t0 target_cmds
  end.

(** [xs[:count]] of a Python list. *)
Definition py_take {A : Type} (xs : list A) (count : Z) : list A :=
  if (0 <=? count)%Z then firstn (Z.to_nat count) xs
  else firstn (Z.to_nat (Z.of_nat (length xs) + count)) xs.

(** The loop of [get_write_labels], appending to [seq]. *)
Fixpoint write_labels_loop (writes : list packet) (t0 : Z)
  (seq : list (Py.float * string * nat)) : Exc (list (Py.float * string * nat)) :=
  match writes with
  | [] => Ret seq
  | pkt :: rest =>
      let '(label, is_cont, cmd, frag_info) := extract_command (pdata pkt) in
      offset <- offset_seconds (ts_us pkt) t0 ;;
      write_labels_loop rest t0 (seq ++ [(offset, label, raw_size pkt)])
  end.

(** [get_write_labels(writes, t0, count)]. *)
Definition get_write_labels (writes : list packet) (t0 : Z) (count : Z)
  : Exc (list (Py.float * string * nat)) :=
  write_labels_loop (py_take writes count) t0 [].

End BtsnoopMain.

(** Sample inputs. *)

Definition btsnoop_example : list Z :=
  (* file header *)
  [98; 116; 115; 110; 111; 111; 112; 0; 0; 0; 0; 1; 0; 0; 3; 234] ++
  (* record header: orig_len, incl_len = 14, flags = 1, drops, timestamp *)
  [0; 0; 0; 14; 0; 0; 0; 14; 0; 0; 0; 1; 0; 0; 0; 0;
   0; 226; 0; 0; 0; 0; 0; 0] ++
  (* HCI ACL, L2CAP CID 4, ATT notification on handle 0x0010 *)
  [2; 64; 0; 9; 0; 5; 0; 4; 0; 27; 16; 0; 170; 187].

Definition long_payload : list Z :=
  [2; 53; 1] ++ repeat 0 16 ++ [10; 12; 8] ++ repeat 255 120 ++ [127; 16; 128; 1; 24; 5]
  ++ repeat 0 2.

Definition position_payload : list Z :=
  [2; 53; 1] ++ repeat 0 17 ++ [10; 12; 8; 128; 128; 128; 16; 16; 128; 128; 128; 16; 24; 42]
  ++ repeat 0 20.

(** Notifications at 0, 1, 2, 3 and 70 seconds: two [02 11] command
    starts, a continuation fragment, a data packet and a [02 09] command. *)
Definition notif_at (t : Z) (data : list Z) : packet :=
  mkPacket "notification"%string t t 16 27 data true (length data).

Definition notif_example : list packet :=
  [notif_at 0 [0; 1; 0; 2; 17]; notif_at 1000000 [128; 2; 5; 6];
   notif_at 2000000 [0; 3; 0; 2; 17]; notif_at 3000000 [0; 4; 7];
   notif_at 70000000 [0; 5; 0; 2; 9]].

(** Derived quantities used in the statements below. *)

Definition clock_example : datetime := mkDatetime 2025 6 1 12 0 45 0.

Definition sum_counts (d : list (string * Z)) : Z := fold_right Z.add 0 (map snd d).

Definition count_or_0 (d : list (string * Z)) (k : string) : Z :=
  match sdict_get d k with Some n => n | None => 0 end.

(** ** Lemmas *)

Lemma land_small_128 (b : Z) : 0 <= b < 128 -> Z.land b 128 = 0.
Proof.
  intros Hb. apply Z.bits_inj'. intros i Hi.
  rewrite Z.land_spec, Z.bits_0.
  destruct (Z.eq_dec i 7) as [->|Hne].
  - rewrite (Z.bits_above_log2 b 7); [reflexivity | lia |].
    destruct (Z.eq_dec b 0) as [->|]; [simpl; lia|].
    apply Z.log2_lt_pow2; lia.
  - change 128 with (2 ^ 7). rewrite Z.pow2_bits_false by lia.
    apply andb_false_r.
Qed.

Lemma land_small_127 (b : Z) : 0 <= b < 128 -> Z.land b 127 = b.
Proof.
  intros Hb. change 127 with (Z.ones 7). rewrite Z.land_ones by lia.
  apply Z.mod_small. lia.
Qed.

Lemma dict_get_notin (d : list ((Z * Z) * string)) (k : Z * Z) (def : string) :
  ~ In k (map fst d) -> dict_get d k def = def.
Proof.
  induction d as [|[k' v] d IH]; simpl; intros Hn; [reflexivity|].
  destruct (key_eqb k' k) eqn:E.
  - exfalso. apply Hn. left. destruct k, k'. unfold key_eqb in E. simpl in E.
    apply andb_true_iff in E. destruct E as [E1 E2].
    apply Z.eqb_eq in E1, E2. subst. reflexivity.
  - apply IH. tauto.
Qed.

Lemma dict_get_in (d : list ((Z * Z) * string)) (k : Z * Z) (v def : string) :
  NoDup (map fst d) -> In (k, v) d -> dict_get d k def = v.
Proof.
  induction d as [|[k' v'] d IH]; simpl; intros Hnd Hin; [contradiction|].
  inversion Hnd as [|? ? Hnotin Hnd']; subst.
  destruct (key_eqb k' k) eqn:E.
  - destruct k, k'. unfold key_eqb in E. simpl in E.
    apply andb_true_iff in E. destruct E as [E1 E2].
    apply Z.eqb_eq in E1, E2. subst.
    destruct Hin as [Heq|Hin]; [congruence|].
    exfalso. apply Hnotin. apply (in_map fst) in Hin. exact Hin.
  - destruct Hin as [Heq|Hin].
    + inversion Heq; subst. destruct k. unfold key_eqb in E. simpl in E.
      rewrite !Z.eqb_refl in E. discriminate.
    + apply IH; assumption.
Qed.

Fixpoint keys_distinct (ks : list (Z * Z)) : bool :=
  match ks with
  | [] => true
  | k :: ks' => negb (existsb (key_eqb k) ks') && keys_distinct ks'
  end.

Lemma key_eqb_refl (k : Z * Z) : key_eqb k k = true.
Proof. destruct k. unfold key_eqb. simpl. rewrite !Z.eqb_refl. reflexivity. Qed.

Lemma keys_distinct_NoDup (ks : list (Z * Z)) : keys_distinct ks = true -> NoDup ks.
Proof.
  induction ks as [|k ks IH]; simpl; intros H; constructor.
  - apply andb_true_iff in H. destruct H as [H _]. intros Hin.
    apply negb_true_iff in H. rewrite <- not_true_iff_false in H. apply H.
    apply existsb_exists. exists k. split; [exact Hin | apply key_eqb_refl].
  - apply IH. apply andb_true_iff in H. tauto.
Qed.

Lemma CMD_LABELS_keys_nodup : NoDup (map fst CMD_LABELS).
Proof. apply keys_distinct_NoDup. vm_compute. reflexivity. Qed.

(** ** Properties *)

(** C1. For a payload [b0, seq, 0x00, cat, id, ...] whose first byte has
    bit 7 clear (in particular [b0 = 0x00]), [extract_command] returns a
    command start [(label, False, (cat, id), frag_info)]: [label] is the
    label of [(cat, id)] in [CMD_LABELS] when the pair is in the table, and
    the synthesized [CMD_<cat>_<id>] (two hex digits each) otherwise. *)
Theorem extract_command_start_label (b0 seq cat id : Z) (rest : list Z) :
  0 <= b0 < 128 ->
  (forall lbl, In ((cat, id), lbl) CMD_LABELS ->
     extract_command (b0 :: seq :: 0 :: cat :: id :: rest)
     = (lbl, false, Some (cat, id),
        ("[0x" ++ fmt_02X b0 ++ " 0x" ++ fmt_02X seq ++ "]")%string)) /\
  (~ In (cat, id) (map fst CMD_LABELS) ->
     extract_command (b0 :: seq :: 0 :: cat :: id :: rest)
     = (("CMD_" ++ fmt_02X cat ++ "_" ++ fmt_02X id)%string, false, Some (cat, id),
        ("[0x" ++ fmt_02X b0 ++ " 0x" ++ fmt_02X seq ++ "]")%string)).
Proof.
  intros Hb0.
  assert (Hstart : extract_command (b0 :: seq :: 0 :: cat :: id :: rest)
    = (dict_get CMD_LABELS (cat, id)
         ("CMD_" ++ fmt_02X cat ++ "_" ++ fmt_02X id)%string, false, Some (cat, id),
       ("[0x" ++ fmt_02X b0 ++ " 0x" ++ fmt_02X seq ++ "]")%string)).
  { unfold extract_command. rewrite (land_small_128 b0 Hb0). reflexivity. }
  rewrite Hstart. split.
  - intros lbl Hin. rewrite (dict_get_in _ _ lbl _ CMD_LABELS_keys_nodup Hin).
    reflexivity.
  - intros Hn. rewrite (dict_get_notin _ _ _ Hn). reflexivity.
Qed.

Lemma extract_command_start_label_witness :
  (0 <= 0 < 128 /\ In ((1, 64), "HANDSHAKE"%string) CMD_LABELS) /\
  extract_command [0; 5; 0; 1; 64; 7]
  = ("HANDSHAKE"%string, false, Some (1, 64), "[0x00 0x05]"%string) /\
  extract_command [0; 5; 0; 3; 171]
  = ("CMD_03_AB"%string, false, Some (3, 171), "[0x00 0x05]"%string).
Proof.
  assert (Hin : In ((1, 64), "HANDSHAKE"%string) CMD_LABELS)
    by (simpl; tauto).
  split; [split; [lia | exact Hin] |]. split.
  - exact (proj1 (extract_command_start_label 0 5 1 64 [7] ltac:(lia)) _ Hin).
  - apply (proj2 (extract_command_start_label 0 5 3 171 [] ltac:(lia))).
    vm_compute. intros H. repeat (destruct H as [H|H]; [discriminate|]). exact H.
Defined.

Lemma lor_low_high (v : Z) :
  0 <= v -> Z.lor (Z.land v 127) (Z.shiftl (Z.shiftr v 7) 7) = v.
Proof.
  intros Hv. apply Z.bits_inj'. intros i Hi.
  rewrite Z.lor_spec, Z.land_spec.
  change 127 with (Z.ones 7).
  destruct (Z.lt_ge_cases i 7) as [Hlt|Hge].
  - rewrite Z.ones_spec_low by lia. rewrite Z.shiftl_spec_low by lia.
    rewrite andb_true_r, orb_false_r. reflexivity.
  - rewrite Z.ones_spec_high by lia. rewrite Z.shiftl_spec_high by lia.
    rewrite Z.shiftr_spec by lia. rewrite andb_false_r. simpl.
    f_equal. lia.
Qed.

Lemma decode_varint_loop_encode (fuel : nat) :
  forall v rest result shift consumed,
  0 <= v < 2 ^ (7 * Z.of_nat (S fuel)) -> 0 <= shift ->
  decode_varint_loop (encode_varint_aux fuel v ++ rest) result shift consumed
  = (Z.lor result (Z.shiftl v shift),
     consumed + Z.of_nat (length (encode_varint_aux fuel v))).
Proof.
  induction fuel as [|fuel IH]; intros v rest result shift consumed Hv Hs.
  - simpl in Hv |- *.
    assert (Hv' : 0 <= v < 128) by (simpl in Hv; lia).
    rewrite (land_small_127 v Hv'), (land_small_128 v Hv'). simpl.
    f_equal.
  - cbn [encode_varint_aux].
    destruct (v <? 128) eqn:Hsmall.
    + apply Z.ltb_lt in Hsmall.
      cbn [app decode_varint_loop length].
      rewrite (land_small_127 v ltac:(lia)), (land_small_128 v ltac:(lia)).
      simpl. f_equal.
    + apply Z.ltb_ge in Hsmall.
      assert (Hb127 : Z.land (Z.lor (Z.land v 127) 128) 127 = Z.land v 127).
      { apply Z.bits_inj'. intros i Hi.
        change 127 with (Z.ones 7). change 128 with (2 ^ 7).
        repeat rewrite ?Z.land_spec, ?Z.lor_spec.
        destruct (Z.lt_ge_cases i 7).
        - rewrite Z.ones_spec_low, Z.pow2_bits_false by lia.
          rewrite !andb_true_r, orb_false_r. reflexivity.
        - rewrite Z.ones_spec_high by lia. rewrite !andb_false_r. reflexivity. }
      assert (Hb128 : Z.land (Z.lor (Z.land v 127) 128) 128 = 128).
      { apply Z.bits_inj'. intros i Hi.
        change 127 with (Z.ones 7). change 128 with (2 ^ 7).
        repeat rewrite ?Z.land_spec, ?Z.lor_spec.
        destruct (Z.eq_dec i 7) as [->|Hne].
        - rewrite Z.ones_spec_high by lia. rewrite Z.pow2_bits_true by lia.
          rewrite andb_false_r. reflexivity.
        - rewrite Z.pow2_bits_false by lia. rewrite !andb_false_r. reflexivity. }
      cbn [app decode_varint_loop].
      rewrite Hb127, Hb128. cbn -[Z.shiftl Z.lor Z.land Z.shiftr].
      rewrite IH; [| split; [apply Z.shiftr_nonneg; lia|] | lia].
      * cbn [length]. f_equal; [| lia].
        rewrite <- Z.lor_assoc. f_equal.
        rewrite <- (lor_low_high v) at 3 by lia.
        rewrite Z.shiftl_lor, Z.shiftl_shiftl by lia.
        f_equal. f_equal. lia.
      * rewrite Z.shiftr_div_pow2 by lia.
        apply Z.div_lt_upper_bound; [lia|].
        rewrite <- Z.pow_add_r by lia.
        replace (7 + 7 * Z.of_nat (S fuel)) with (7 * Z.of_nat (S (S fuel))) by lia.
        lia.
Qed.

Lemma encode_varint_fuel_enough (v : Z) :
  0 <= v -> v < 2 ^ (7 * Z.of_nat (S (Z.to_nat (Z.log2 v / 7)))).
Proof.
  intros Hv.
  assert (HL := Z.log2_nonneg v).
  pose proof (Z.div_mod (Z.log2 v) 7 ltac:(lia)) as Hdm.
  pose proof (Z.mod_pos_bound (Z.log2 v) 7 ltac:(lia)) as Hmb.
  assert (Hq : 0 <= Z.log2 v / 7) by (apply Z.div_pos; lia).
  rewrite Nat2Z.inj_succ, Z2Nat.id by lia.
  destruct (Z.eq_dec v 0) as [->|Hv0]; [apply Z.pow_pos_nonneg; lia|].
  destruct (Z.log2_spec v ltac:(lia)) as [_ Hup].
  eapply Z.lt_le_trans; [exact Hup|].
  apply Z.pow_le_mono_r; lia.
Qed.

(** C4. For [0 <= v < 2^35], decoding (at offset 0) the groups-of-7-bits
    varint encoding of [v] gives back [v], and the number of bytes consumed
    is the length of the encoding. *)
Theorem decode_varint_encode_roundtrip (v : Z) :
  0 <= v < 2 ^ 35 ->
  decode_varint (encode_varint v) 0 = (v, Z.of_nat (length (encode_varint v))).
Proof.
  intros Hv. unfold decode_varint. cbn [skipn].
  rewrite <- (app_nil_r (encode_varint v)).
  unfold encode_varint.
  rewrite decode_varint_loop_encode.
  - rewrite Z.lor_0_l, Z.shiftl_0_r, app_nil_r. reflexivity.
  - split; [lia|]. apply encode_varint_fuel_enough. lia.
  - lia.
Qed.

Lemma decode_varint_encode_roundtrip_witness :
  0 <= 300 < 2 ^ 35 /\ decode_varint (encode_varint 300) 0 = (300, 2).
Proof.
  split; [lia|].
  exact (decode_varint_encode_roundtrip 300 ltac:(lia)).
Defined.

(** C5. For every signed 32-bit [v], zig-zag decoding its zig-zag encoding
    with [decode_sint32] gives back [v]. *)
Theorem decode_sint32_zigzag_roundtrip (v : Z) :
  - 2 ^ 31 <= v < 2 ^ 31 -> decode_sint32 (encode_zigzag32 v) = v.
Proof.
  intros Hv. unfold decode_sint32, encode_zigzag32.
  assert (Hland1 : forall x, Z.land x 1 = x mod 2).
  { intros x. change 1 with (Z.ones 1). rewrite Z.land_ones by lia. reflexivity. }
  rewrite Hland1.
  rewrite (Z.shiftr_div_pow2 v 31) by lia. rewrite Z.shiftl_mul_pow2 by lia.
  destruct (Z.neg_nonneg_cases v) as [Hneg|Hpos].
  - assert (Hq : v / 2 ^ 31 = -1) by (symmetry; apply Z.div_unique with (v + 2 ^ 31); lia).
    rewrite Hq, Z.lxor_m1_r.
    assert (Hu : Z.lnot (v * 2 ^ 1) = 2 * (- v - 1) + 1) by (unfold Z.lnot; lia).
    rewrite Hu, Z.shiftr_div_pow2 by lia.
    assert (Hd : (2 * (- v - 1) + 1) / 2 ^ 1 = - v - 1)
      by (symmetry; apply Z.div_unique with 1; lia).
    assert (Hm : (2 * (- v - 1) + 1) mod 2 = 1)
      by (symmetry; apply Z.mod_unique with (- v - 1); lia).
    rewrite Hd, Hm.
    rewrite Z.lxor_m1_r. unfold Z.lnot. lia.
  - assert (Hq : v / 2 ^ 31 = 0) by (apply Z.div_small; lia).
    rewrite Hq, Z.lxor_0_r, Z.shiftr_div_pow2 by lia.
    assert (Hd : v * 2 ^ 1 / 2 ^ 1 = v) by (apply Z.div_mul; lia).
    assert (Hm : (v * 2 ^ 1) mod 2 = 0)
      by (symmetry; apply Z.mod_unique with v; lia).
    rewrite Hd, Hm, Z.lxor_0_r. reflexivity.
Qed.

Lemma decode_sint32_zigzag_roundtrip_witness :
  - 2 ^ 31 <= -5 < 2 ^ 31 /\ decode_sint32 (encode_zigzag32 (-5)) = -5.
Proof.
  split; [lia|].
  exact (decode_sint32_zigzag_roundtrip (-5) ltac:(lia)).
Defined.

(** C8. [semicircles_to_degrees] maps [2147483648] to exactly [180.0],
    [-2147483648] to exactly [-180.0] and [0] to exactly [0.0]; it
    multiplies [float(sc)] by the binary64 constant [180.0 / 2147483648.0],
    which is exactly [180 / 2^31 = 45 * 2^47 * 2^-76]. *)
Theorem semicircles_to_degrees_values :
  semicircles_to_degrees 2147483648 = Ret (Py.lit 180) /\
  semicircles_to_degrees (-2147483648) = Ret (Py.lit (-180)) /\
  semicircles_to_degrees 0 = Ret (Py.lit 0) /\
  Py.fdiv (Py.lit 180) (Py.lit 2147483648) = S754_finite false (45 * 2 ^ 47) (-76) /\
  (forall sc, semicircles_to_degrees sc
     = exc_bind (Py.float_of_int sc)
         (fun f => Ret (Py.fmul f (S754_finite false (45 * 2 ^ 47) (-76))))).
Proof.
  assert (Hc : Py.fdiv (Py.lit 180) (Py.lit 2147483648)
               = S754_finite false (45 * 2 ^ 47) (-76)) by (vm_compute; reflexivity).
  split; [vm_compute; reflexivity|].
  split; [vm_compute; reflexivity|].
  split; [vm_compute; reflexivity|].
  split; [exact Hc|].
  intros sc. unfold semicircles_to_degrees. rewrite Hc. reflexivity.
Qed.

(** C9. [parse_ble_notification] returns [None] when the payload is shorter
    than 40 bytes, and when the collar marker [02 35 01] starts at no index
    [i] with [0 <= i < min(len(payload) - 3, 20)], whatever the rest of the
    payload holds. *)
Theorem parse_ble_notification_gates (data : list Z) :
  (Z.of_nat (length data) < 40 -> parse_ble_notification data = Ret None) /\
  ((forall i : nat, Z.of_nat i < Z.min (Z.of_nat (length data) - 3) 20 ->
      collar_marker_at data i = false) ->
   parse_ble_notification data = Ret None).
Proof.
  unfold parse_ble_notification. split.
  - intros Hlen. apply Z.ltb_lt in Hlen. rewrite Hlen. reflexivity.
  - intros Hno.
    assert (Hc : is_collar data = false).
    { unfold is_collar. apply not_true_iff_false. intros Hex.
      apply existsb_exists in Hex. destruct Hex as [i [Hi Hm]].
      unfold py_range in Hi. apply in_seq in Hi.
      rewrite Hno in Hm; [discriminate|]. lia. }
    rewrite Hc. destruct (Z.of_nat (length data) <? 40); reflexivity.
Qed.

Lemma parse_ble_notification_gates_witness :
  let late_marker := repeat 0 21 ++ [2; 53; 1] ++ [10; 12; 8; 200; 1; 16; 100; 24; 5]
                     ++ repeat 0 17 in
  (Z.of_nat (length [10; 12; 8; 200; 1; 16; 100]) < 40 /\
   parse_ble_notification [10; 12; 8; 200; 1; 16; 100] = Ret None) /\
  (forall i : nat, Z.of_nat i < Z.min (Z.of_nat (length late_marker) - 3) 20 ->
      collar_marker_at late_marker i = false) /\
  parse_ble_notification late_marker = Ret None /\
  (exists p, coord_candidate late_marker 24 = Ret (Some p)).
Proof.
  intros late_marker.
  assert (Hno : forall i : nat, Z.of_nat i < Z.min (Z.of_nat (length late_marker) - 3) 20 ->
      collar_marker_at late_marker i = false).
  { intros i Hi. change (Z.of_nat (length late_marker)) with 50 in Hi.
    assert (Hi' : (i < 20)%nat) by lia.
    do 20 (destruct i as [|i]; [reflexivity|]). lia. }
  split.
  - split; [simpl; lia|].
    apply (proj1 (parse_ble_notification_gates [10; 12; 8; 200; 1; 16; 100])).
    simpl; lia.
  - split; [exact Hno|]. split.
    + exact (proj2 (parse_ble_notification_gates late_marker) Hno).
    + eexists. vm_compute. reflexivity.
Defined.

Lemma coord_scan_all_none (data : list Z) (js : list nat) :
  (forall j, In j js -> coord_candidate data j = Ret None) ->
  coord_scan data js = Ret None.
Proof.
  induction js as [|j js IH]; simpl; intros H; [reflexivity|].
  rewrite (H j (or_introl eq_refl)). simpl. apply IH. intros j' Hj'. apply H. tauto.
Qed.

(** C10. The coordinate scan only looks at marker starts [j] with
    [0 <= j < len(payload) - 15]: a payload whose every [0A 0C 08]
    occurrence starts at [len(payload) - 15] or later yields no position. *)
Theorem parse_ble_notification_late_marker (data : list Z) :
  (forall j : nat, coord_marker_at data j = true ->
     Z.of_nat (length data) - 15 <= Z.of_nat j) ->
  parse_ble_notification data = Ret None.
Proof.
  intros Hlate. unfold parse_ble_notification.
  destruct (Z.of_nat (length data) <? 40); [reflexivity|].
  destruct (negb (is_collar data)); [reflexivity|].
  apply coord_scan_all_none. intros j Hj.
  unfold py_range in Hj. apply in_seq in Hj.
  unfold coord_candidate.
  destruct (coord_marker_at data j) eqn:Hm; [|reflexivity].
  apply Hlate in Hm. lia.
Qed.

Lemma parse_ble_notification_late_marker_witness :
  let d := [2; 53; 1] ++ repeat 0 22 ++ [10; 12; 8; 200; 1; 16; 100; 24; 5] ++ repeat 0 6 in
  (forall j : nat, coord_marker_at d j = true -> Z.of_nat (length d) - 15 <= Z.of_nat j) /\
  parse_ble_notification d = Ret None /\
  (exists p, coord_candidate d 25 = Ret (Some p)).
Proof.
  intros d.
  assert (Hlate : forall j : nat, coord_marker_at d j = true ->
            Z.of_nat (length d) - 15 <= Z.of_nat j).
  { intros j Hj. change (Z.of_nat (length d)) with 40.
    destruct (Nat.lt_ge_cases j 25) as [Hlt|Hge]; [|lia].
    exfalso. do 25 (destruct j as [|j]; [discriminate Hj|]). lia. }
  split; [exact Hlate|]. split.
  - exact (parse_ble_notification_late_marker d Hlate).
  - eexists. vm_compute. reflexivity.
Defined.

Lemma coord_candidate_eq (data : list Z) (j : nat) :
  coord_candidate data j =
  if structurally_valid data j then
    match block_degrees data j with
    | None => Raise OverflowError
    | Some (a, b) =>
        if in_range a b
        then Ret (Some (mkDogPosition a b (block_timestamp data j) None None None))
        else Ret None
    end
  else Ret None.
Proof.
  unfold coord_candidate, structurally_valid, block_degrees, block_timestamp,
    lon_varint, lon_offset_at, lat_varint.
  destruct (coord_marker_at data j); [|reflexivity]. cbn [andb].
  destruct (decode_varint data (j + 3)) as [lat_val lat_len]. cbn [fst snd].
  destruct (Z.of_nat (length data) <=? Z.of_nat j + 3 + lat_len) eqn:Hle.
  - apply Z.leb_le in Hle.
    replace (Z.of_nat j + 3 + lat_len <? Z.of_nat (length data)) with false
      by (symmetry; apply Z.ltb_ge; lia). reflexivity.
  - apply Z.leb_gt in Hle.
    replace (Z.of_nat j + 3 + lat_len <? Z.of_nat (length data)) with true
      by (symmetry; apply Z.ltb_lt; lia). cbn [orb andb].
    destruct (byte_at data (Z.to_nat (Z.of_nat j + 3 + lat_len)) =? 16);
      [|reflexivity]. cbn [negb].
    destruct (decode_varint data (Z.to_nat (Z.of_nat j + 3 + lat_len) + 1))
      as [lon_val lon_len]. cbn [fst snd].
    destruct (semicircles_to_degrees (decode_sint32 lat_val)) as [a|[]]; [|reflexivity].
    destruct (semicircles_to_degrees (decode_sint32 lon_val)) as [b|[]]; [|reflexivity].
    cbn [exc_bind]. destruct (in_range a b); reflexivity.
Qed.

Lemma coord_candidate_block (data : list Z) (j : nat) :
  converts data j ->
  (block_valid data j = true ->
     exists p, block_position data j = Some p /\ coord_candidate data j = Ret (Some p)) /\
  (block_valid data j = false -> coord_candidate data j = Ret None).
Proof.
  intros Hconv. rewrite coord_candidate_eq.
  unfold block_valid, block_position.
  destruct (structurally_valid data j) eqn:Hs; cbn [andb].
  - specialize (Hconv Hs).
    destruct (block_degrees data j) as [[a b]|]; [|congruence].
    split.
    + intros Hr. rewrite Hr. eexists. split; reflexivity.
    + intros Hr. rewrite Hr. reflexivity.
  - split; [discriminate | reflexivity].
Qed.

(** The scan over [seq s n] returns the first candidate that returns. *)
Lemma coord_scan_seq (data : list Z) (n : nat) :
  forall s,
  (forall j, (s <= j < s + n)%nat -> coord_candidate data j <> Raise OverflowError) ->
  (forall p, coord_scan data (seq s n) = Ret (Some p) <->
     exists j, (s <= j < s + n)%nat /\ coord_candidate data j = Ret (Some p) /\
       forall j', (s <= j' < j)%nat -> coord_candidate data j' = Ret None) /\
  (coord_scan data (seq s n) = Ret None <->
     forall j, (s <= j < s + n)%nat -> coord_candidate data j = Ret None).
Proof.
  induction n as [|n IH]; intros s Hne.
  - simpl. split.
    + intros p. split; [discriminate|]. intros [j [Hj _]]. lia.
    + split; [intros _ j Hj; lia | reflexivity].
  - cbn [seq coord_scan].
    assert (Hne' : forall j, (S s <= j < S s + n)%nat ->
                     coord_candidate data j <> Raise OverflowError)
      by (intros j Hj; apply Hne; lia).
    destruct (IH (S s) Hne') as [IHsome IHnone].
    destruct (coord_candidate data s) as [[p0|]|e] eqn:Hc; cbn [exc_bind].
    + split.
      * intros p. split.
        -- intros Hp. inversion Hp; subst. exists s. split; [lia|].
           split; [exact Hc|]. intros j' Hj'. lia.
        -- intros [j [Hj [Hcj Hbefore]]].
           destruct (Nat.eq_dec j s) as [->|Hjs].
           ++ congruence.
           ++ rewrite Hbefore in Hc; [discriminate | lia].
      * split; [discriminate|]. intros Hall. rewrite Hall in Hc; [discriminate|lia].
    + split.
      * intros p. rewrite IHsome. split.
        -- intros [j [Hj [Hcj Hbefore]]]. exists j. split; [lia|].
           split; [exact Hcj|]. intros j' Hj'.
           destruct (Nat.eq_dec j' s) as [->|]; [exact Hc|]. apply Hbefore. lia.
        -- intros [j [Hj [Hcj Hbefore]]].
           destruct (Nat.eq_dec j s) as [->|Hjs]; [congruence|].
           exists j. split; [lia|]. split; [exact Hcj|].
           intros j' Hj'. apply Hbefore. lia.
      * rewrite IHnone. split.
        -- intros Hall j Hj. destruct (Nat.eq_dec j s) as [->|]; [exact Hc|].
           apply Hall. lia.
        -- intros Hall j Hj. apply Hall. lia.
    + exfalso. destruct e. apply (Hne s); [lia | exact Hc].
Qed.

Lemma coord_candidate_no_raise (data : list Z) (j : nat) :
  converts data j -> coord_candidate data j <> Raise OverflowError.
Proof.
  intros Hconv. rewrite coord_candidate_eq.
  destruct (structurally_valid data j) eqn:Hs; [|discriminate].
  specialize (Hconv Hs).
  destruct (block_degrees data j) as [[a b]|]; [|congruence].
  destruct (in_range a b); discriminate.
Qed.

(** C2 (amended). For a payload that passes the two gates of
    [parse_ble_notification] (at least 40 bytes, collar marker [02 35 01]
    at some [i < min(len - 3, 20)]), and whose structurally valid
    candidates all convert to [float], the scan over the marker starts
    [j < len - 15] returns the position of the first [j] whose block is
    structurally valid and in range: invalid candidates are skipped, and
    the result is [None] (not an error) when no candidate validates. *)
Theorem parse_ble_notification_first_valid_block (data : list Z) :
  40 <= Z.of_nat (length data) ->
  (exists i : nat, Z.of_nat i < Z.min (Z.of_nat (length data) - 3) 20 /\
                   collar_marker_at data i = true) ->
  (forall j : nat, Z.of_nat j < Z.of_nat (length data) - 15 -> converts data j) ->
  (forall p, parse_ble_notification data = Ret (Some p) <->
     exists j : nat, Z.of_nat j < Z.of_nat (length data) - 15 /\
       block_valid data j = true /\
       (forall j', (j' < j)%nat -> block_valid data j' = false) /\
       block_position data j = Some p) /\
  (parse_ble_notification data = Ret None <->
     forall j : nat, Z.of_nat j < Z.of_nat (length data) - 15 ->
       block_valid data j = false).
Proof.
  intros Hlen [i [Hi Hmi]] Hconv.
  assert (Hcol : is_collar data = true).
  { unfold is_collar. apply existsb_exists. exists i. split; [|exact Hmi].
    unfold py_range. apply in_seq. lia. }
  unfold parse_ble_notification.
  replace (Z.of_nat (length data) <? 40) with false by (symmetry; apply Z.ltb_ge; lia).
  rewrite Hcol. cbn [negb]. unfold py_range.
  set (n := Z.to_nat (Z.of_nat (length data) - 15)).
  assert (Hn : forall j : nat, (0 <= j < 0 + n)%nat <->
                 Z.of_nat j < Z.of_nat (length data) - 15) by (intros j; unfold n; lia).
  destruct (coord_scan_seq data n 0) as [Hsome Hnone].
  { intros j Hj. apply coord_candidate_no_raise. apply Hconv. apply Hn. exact Hj. }
  split.
  - intros p. rewrite Hsome. split.
    + intros [j [Hj [Hcj Hbefore]]]. exists j.
      assert (Hjz := proj1 (Hn j) Hj).
      destruct (coord_candidate_block data j (Hconv j Hjz)) as [Hv Hf].
      destruct (block_valid data j) eqn:Hb.
      * destruct (Hv eq_refl) as [p' [Hp' Hc']]. rewrite Hc' in Hcj.
        inversion Hcj; subst. split; [exact Hjz|]. split; [reflexivity|].
        split; [|exact Hp'].
        intros j' Hj'.
        assert (Hj'z : Z.of_nat j' < Z.of_nat (length data) - 15) by lia.
        destruct (coord_candidate_block data j' (Hconv j' Hj'z)) as [Hv' _].
        destruct (block_valid data j') eqn:Hb'; [|reflexivity].
        destruct (Hv' eq_refl) as [p'' [_ Hc'']].
        rewrite Hbefore in Hc''; [discriminate | lia].
      * rewrite (Hf eq_refl) in Hcj. discriminate.
    + intros [j [Hjz [Hb [Hbefore Hp]]]]. exists j.
      split; [apply Hn; exact Hjz|].
      destruct (coord_candidate_block data j (Hconv j Hjz)) as [Hv _].
      destruct (Hv Hb) as [p' [Hp' Hc']]. rewrite Hp in Hp'. inversion Hp'; subst.
      split; [exact Hc'|].
      intros j' Hj'.
      assert (Hj'z : Z.of_nat j' < Z.of_nat (length data) - 15) by lia.
      apply (proj2 (coord_candidate_block data j' (Hconv j' Hj'z))).
      apply Hbefore. lia.
  - rewrite Hnone. split.
    + intros Hall j Hjz.
      destruct (coord_candidate_block data j (Hconv j Hjz)) as [Hv _].
      destruct (block_valid data j) eqn:Hb; [|reflexivity].
      destruct (Hv eq_refl) as [p [_ Hc]].
      rewrite Hall in Hc; [discriminate | apply Hn; exact Hjz].
    + intros Hall j Hj.
      assert (Hjz := proj1 (Hn j) Hj).
      apply (proj2 (coord_candidate_block data j (Hconv j Hjz))).
      apply Hall. exact Hjz.
Qed.

Lemma parse_ble_notification_first_valid_block_witness :
  let d := [2; 53; 1] ++ repeat 0 5
           ++ [10; 12; 8; 200; 1; 99]
           ++ [10; 12; 8] ++ encode_varint 2147483650 ++ [16; 0]
           ++ [10; 12; 8; 200; 1; 16; 100; 24; 5] ++ repeat 0 20 in
  (40 <= Z.of_nat (length d) /\
   (exists i : nat, Z.of_nat i < Z.min (Z.of_nat (length d) - 3) 20 /\
                    collar_marker_at d i = true) /\
   (forall j : nat, Z.of_nat j < Z.of_nat (length d) - 15 -> converts d j)) /\
  structurally_valid d 8 = false /\ structurally_valid d 14 = true /\
  block_valid d 14 = false /\
  exists p, block_position d 24 = Some p /\ parse_ble_notification d = Ret (Some p).
Proof.
  intros d.
  assert (H1 : 40 <= Z.of_nat (length d)) by (vm_compute; discriminate).
  assert (H2 : exists i : nat, Z.of_nat i < Z.min (Z.of_nat (length d) - 3) 20 /\
                 collar_marker_at d i = true)
    by (exists 0%nat; split; [vm_compute; reflexivity | reflexivity]).
  assert (H3 : forall j : nat, Z.of_nat j < Z.of_nat (length d) - 15 -> converts d j).
  { intros j Hj. change (Z.of_nat (length d)) with 53 in Hj.
    assert (Hj' : (j < 38)%nat) by lia. clear Hj.
    unfold converts. intros Hs.
    do 38 (destruct j as [|j];
           [vm_compute in Hs |- *; first [discriminate Hs | discriminate] |]).
    lia. }
  split; [split; [exact H1 | split; [exact H2 | exact H3]]|].
  split; [vm_compute; reflexivity|].
  split; [vm_compute; reflexivity|].
  split; [vm_compute; reflexivity|].
  destruct (parse_ble_notification_first_valid_block d H1 H2 H3) as [Hsome _].
  destruct (block_position d 24) as [p|] eqn:Hp; [|vm_compute in Hp; discriminate].
  exists p. split; [reflexivity|].
  apply Hsome. exists 24%nat.
  split; [vm_compute; reflexivity|].
  split; [vm_compute; reflexivity|].
  split; [|exact Hp].
  intros j' Hj'.
  do 24 (destruct j' as [|j']; [vm_compute; reflexivity|]). lia.
Defined.

(** C2 as stated: every payload yields the position of its first
    structurally valid, in-range block. A 40-byte payload whose only block
    starts at [len - 15 = 25] is a counterexample: the scan stops before
    it and the result is [None]. *)
Lemma parse_ble_notification_first_valid_block_counterexample :
  ~ (forall data j, block_valid data j = true ->
       (forall j', (j' < j)%nat -> block_valid data j' = false) ->
       exists p, block_position data j = Some p /\
                 parse_ble_notification data = Ret (Some p)).
Proof.
  intros H.
  set (d := [2; 53; 1] ++ repeat 0 22 ++ [10; 12; 8; 200; 1; 16; 100; 24; 5]
            ++ repeat 0 6).
  destruct (H d 25%nat) as [p [_ Hparse]].
  - vm_compute. reflexivity.
  - intros j' Hj'. do 25 (destruct j' as [|j']; [vm_compute; reflexivity|]). lia.
  - vm_compute in Hparse. discriminate.
Qed.

(** C7 (amended). A capture file with fewer than 16 bytes, the size of the
    btsnoop file header, makes [parse_btsnoop] print
    ["ERROR: File too short for header: <path>"] and return an empty packet
    list: a normal return with zero packets, not a raised error. *)
Theorem parse_btsnoop_short_header (filepath : string) (contents : list Z) :
  (length contents < 16)%nat ->
  parse_btsnoop filepath contents
  = Ret (["ERROR: File too short for header: " ++ filepath]%string, []).
Proof.
  intros Hlen. unfold parse_btsnoop.
  rewrite firstn_all2 by lia.
  replace (length contents <? 16)%nat with true by (symmetry; apply Nat.ltb_lt; lia).
  reflexivity.
Qed.

Lemma parse_btsnoop_short_header_witness :
  (length [0; 98; 116; 115; 110; 111; 111; 112] < 16)%nat /\
  parse_btsnoop "capture.log" [0; 98; 116; 115; 110; 111; 111; 112]
  = Ret (["ERROR: File too short for header: capture.log"]%string, []).
Proof.
  split; [simpl; lia|].
  exact (parse_btsnoop_short_header "capture.log" [0; 98; 116; 115; 110; 111; 111; 112]
           ltac:(simpl; lia)).
Defined.

(** C7 as stated: a capture whose header is shorter than 16 bytes makes
    the reader fail with an error. The empty file is a counterexample:
    [parse_btsnoop] returns normally. *)
Lemma parse_btsnoop_short_header_counterexample :
  ~ (forall filepath contents, (length contents < 16)%nat ->
       exists e, parse_btsnoop filepath contents = Raise e).
Proof.
  intros H. destruct (H "capture.log"%string [] ltac:(simpl; lia)) as [e He].
  vm_compute in He. discriminate.
Qed.

(** ** Binary64 rounding facts

    Enough of the behaviour of [binary_round_aux] on mantissas of at least
    53 bits to evaluate [float(d) / 1e6 > 30] for 64-bit [d]. *)

Lemma digits2_pos_log2 (p : positive) : Zpos (digits2_pos p) = Z.log2 (Zpos p) + 1.
Proof.
  induction p as [p IH|p IH|]; simpl; [| |reflexivity];
    rewrite Pos2Z.inj_succ, IH; destruct p; simpl; lia.
Qed.

Lemma shr_1_m (r : shr_record) :
  0 <= shr_m r -> shr_m (shr_1 r) = Z.div2 (shr_m r).
Proof.
  destruct r as [m rb sb]; simpl. intros Hm.
  destruct m as [|[p|p|]|p]; simpl; try reflexivity. lia.
Qed.

Lemma iter_pos_shr_1 (p : positive) :
  forall r, 0 <= shr_m r ->
  shr_m (iter_pos shr_1 p r) = Z.shiftr (shr_m r) (Zpos p) /\
  0 <= shr_m (iter_pos shr_1 p r).
Proof.
  induction p as [p IH|p IH|]; intros r Hr; simpl.
  - assert (H1 : 0 <= shr_m (shr_1 r)) by (rewrite shr_1_m by lia; apply Z.div2_nonneg; lia).
    destruct (IH _ H1) as [H2 H3]. destruct (IH _ H3) as [H4 H5].
    split; [|exact H5].
    rewrite H4, H2, shr_1_m, Z.div2_spec, !Z.shiftr_shiftr by lia.
    f_equal. lia.
  - destruct (IH _ Hr) as [H2 H3]. destruct (IH _ H3) as [H4 H5].
    split; [|exact H5].
    rewrite H4, H2, Z.shiftr_shiftr by lia. f_equal. lia.
  - rewrite shr_1_m, Z.div2_spec by lia. split; [reflexivity|].
    apply Z.shiftr_nonneg. lia.
Qed.

Lemma shr_record_of_loc_m (m : Z) (l : location) : shr_m (shr_record_of_loc m l) = m.
Proof. destruct l as [|[]]; reflexivity. Qed.

Lemma loc_of_shr_record_of_loc (m : Z) (l : location) :
  loc_of_shr_record (shr_record_of_loc m l) = l.
Proof. destruct l as [|[]]; reflexivity. Qed.

Lemma round_nearest_even_cases (m : Z) (l : location) :
  round_nearest_even m l = m \/ round_nearest_even m l = m + 1.
Proof.
  destruct l as [|[]]; simpl; auto. destruct (Z.even m); auto.
Qed.

(** The first rounding step: shift a mantissa of [53 + k] bits right by
    [k] at exponent [e]. *)
Lemma shr_fexp_wide (q e : Z) (l : location) :
  2 ^ 52 <= q -> -1074 <= e ->
  let k := Z.log2 q - 52 in
  shr_m (fst (shr_fexp Py.prec Py.emax q e l)) = Z.shiftr q k /\
  snd (shr_fexp Py.prec Py.emax q e l) = e + k /\
  (k = 0 -> loc_of_shr_record (fst (shr_fexp Py.prec Py.emax q e l)) = l).
Proof.
  intros Hq He k.
  assert (HL : 52 <= Z.log2 q) by (apply Z.log2_le_pow2; lia).
  unfold shr_fexp.
  assert (Hd : Zdigits2 q = Z.log2 q + 1).
  { destruct q as [|p|p]; try lia. simpl. apply digits2_pos_log2. }
  rewrite Hd.
  assert (Hf : fexp Py.prec Py.emax (Z.log2 q + 1 + e) - e = k).
  { unfold fexp, emin, Py.prec, Py.emax, k. lia. }
  rewrite Hf. unfold shr.
  destruct k as [|kp|kp] eqn:Hk; simpl.
  - rewrite shr_record_of_loc_m, Z.shiftr_0_r. split; [reflexivity|].
    split; [lia|]. intros _. apply loc_of_shr_record_of_loc.
  - destruct (iter_pos_shr_1 kp (shr_record_of_loc q l)) as [H1 _];
      [rewrite shr_record_of_loc_m; lia|].
    rewrite H1, shr_record_of_loc_m. split; [reflexivity|]. split; [reflexivity|].
    discriminate.
  - unfold k in Hk. lia.
Qed.

Lemma log2_between (a b : Z) : 0 <= b -> 2 ^ b <= a < 2 ^ (b + 1) -> Z.log2 a = b.
Proof. intros Hb Ha. apply Z.log2_unique; [exact Hb|]. rewrite <- Z.add_1_r. exact Ha. Qed.

(** [binary_round_aux] on a mantissa [q] of [53 + k] bits at exponent [e]
    gives a normal float [M * 2^E] with [|M * 2^E - q * 2^e| <= 2^k * 2^e],
    exact when [k = 0] and nothing was lost before. *)
Lemma round_aux_wide (sx : bool) (q e : Z) (l : location) :
  2 ^ 52 <= q -> -1074 <= e -> e + (Z.log2 q - 52) + 1 <= 971 ->
  let k := Z.log2 q - 52 in
  exists M E, binary_round_aux Py.prec Py.emax sx q e l = S754_finite sx M E /\
    2 ^ 52 <= Zpos M < 2 ^ 53 /\ e + k <= E <= e + k + 1 /\
    q - 2 ^ k < Zpos M * 2 ^ (E - e) <= q + 2 ^ k /\
    (k = 0 -> l = loc_Exact -> Zpos M = q /\ E = e).
Proof.
  intros Hq He Hmax k.
  assert (HL : 52 <= Z.log2 q) by (apply Z.log2_le_pow2; lia).
  assert (Hk0 : 0 <= k) by (unfold k; lia).
  destruct (Z.log2_spec q ltac:(lia)) as [Hlo Hhi].
  assert (HP : 2 ^ Z.log2 q = 2 ^ 52 * 2 ^ k)
    by (rewrite <- Z.pow_add_r by lia; f_equal; unfold k; lia).
  assert (HP' : 2 ^ Z.succ (Z.log2 q) = 2 ^ 53 * 2 ^ k)
    by (rewrite <- Z.pow_add_r by lia; f_equal; unfold k; lia).
  assert (Hpk : 0 < 2 ^ k) by (apply Z.pow_pos_nonneg; lia).
  destruct (shr_fexp_wide q e l Hq He) as [Hm1 [He1 Hl1]]. fold k in Hm1, He1, Hl1.
  unfold binary_round_aux.
  destruct (shr_fexp Py.prec Py.emax q e l) as [mrs' e'] eqn:H1.
  cbn [fst snd] in Hm1, He1, Hl1.
  set (m1 := shr_m mrs') in *.
  rewrite Z.shiftr_div_pow2 in Hm1 by lia.
  pose proof (Z.div_mod q (2 ^ k) ltac:(lia)) as Hdm.
  pose proof (Z.mod_pos_bound q (2 ^ k) Hpk) as Hmb.
  rewrite <- Hm1 in Hdm.
  assert (Hm1lo : 2 ^ 52 <= m1) by nia.
  assert (Hm1hi : m1 < 2 ^ 53) by nia.
  set (M0 := round_nearest_even m1 (loc_of_shr_record mrs')).
  assert (HM0 : M0 = m1 \/ M0 = m1 + 1) by apply round_nearest_even_cases.
  assert (HM0lo : 2 ^ 52 <= M0) by lia.
  assert (HW : q - 2 ^ k < M0 * 2 ^ k <= q + 2 ^ k) by (destruct HM0 as [-> | ->]; nia).
  assert (Hexact : k = 0 -> l = loc_Exact -> M0 = q).
  { intros Hk Hl. subst l. unfold M0. rewrite (Hl1 Hk). simpl.
    assert (H2k : 2 ^ k = 1) by (rewrite Hk; reflexivity).
    rewrite H2k in Hdm, Hmb. lia. }
  clearbody M0.
  destruct (shr_fexp_wide M0 e' loc_Exact HM0lo ltac:(lia)) as [Hm2 [He2 _]].
  destruct (shr_fexp Py.prec Py.emax M0 e' loc_Exact) as [mrs'' e''] eqn:H2.
  cbn [fst snd] in Hm2, He2.
  destruct (Z.lt_ge_cases M0 (2 ^ 53)) as [Hlt|Hge].
  - rewrite (log2_between M0 52) in Hm2, He2 by (try split; lia).
    rewrite Z.sub_diag, Z.shiftr_0_r in Hm2.
    rewrite Hm2.
    destruct M0 as [|m|m] eqn:HM0e; try lia.
    replace (e'' <=? Py.emax - Py.prec) with true
      by (symmetry; apply Z.leb_le; unfold Py.emax, Py.prec; lia).
    exists m, e''. split; [reflexivity|].
    split; [lia|]. split; [lia|].
    replace (e'' - e) with k by lia. split; [exact HW|].
    intros Hk Hl. specialize (Hexact Hk Hl). split; lia.
  - assert (HM053 : M0 = 2 ^ 53) by lia.
    rewrite (log2_between M0 53) in Hm2, He2 by (try split; lia).
    rewrite HM053 in Hm2. replace (53 - 52) with 1 in Hm2 by lia.
    change (Z.shiftr (2 ^ 53) 1) with (2 ^ 52) in Hm2.
    rewrite Hm2.
    replace (e'' <=? Py.emax - Py.prec) with true
      by (symmetry; apply Z.leb_le; unfold Py.emax, Py.prec; lia).
    exists (2 ^ 52)%positive, e''. split; [reflexivity|].
    split; [simpl; lia|]. split; [lia|].
    replace (e'' - e) with (k + 1) by lia.
    rewrite Z.pow_add_r by lia. rewrite HM053 in HW.
    split; [change (Zpos (2 ^ 52)) with (2 ^ 52); nia|].
    intros Hk Hl. specialize (Hexact Hk Hl). exfalso.
    assert (H2k : 2 ^ k = 1) by (rewrite Hk; reflexivity).
    rewrite H2k in HP'. lia.
Qed.

Lemma iter_xO_mul (p d : positive) : Zpos (Pos.iter xO p d) = Zpos p * 2 ^ Zpos d.
Proof.
  induction d as [|d IH] using Pos.peano_ind.
  - simpl. lia.
  - rewrite Pos.iter_succ, Pos2Z.inj_succ, Z.pow_succ_r by lia.
    change (Zpos (xO (Pos.iter xO p d))) with (2 * Zpos (Pos.iter xO p d)).
    rewrite IH. lia.
Qed.

(** [float(n)] for [0 < n < 2^64]: a normal float [M * 2^E], equal to [n]
    when [n < 2^53]. *)
Lemma binary_round_int (sx : bool) (p : positive) :
  Zpos p < 2 ^ 64 ->
  exists M E, binary_round Py.prec Py.emax sx p 0 = S754_finite sx M E /\
    2 ^ 52 <= Zpos M < 2 ^ 53 /\ E <= 12 /\
    ((Zpos p < 2 ^ 53 /\ E <= 0 /\ Zpos M = Zpos p * 2 ^ (- E)) \/
     (2 ^ 53 <= Zpos p /\ 0 <= E)).
Proof.
  intros Hp64. unfold binary_round.
  rewrite digits2_pos_log2, Z.add_0_r.
  assert (HL0 : 0 <= Z.log2 (Zpos p)) by apply Z.log2_nonneg.
  destruct (Z.log2_spec (Zpos p) ltac:(lia)) as [Hlo Hhi].
  assert (HL64 : Z.log2 (Zpos p) < 64) by (apply Z.log2_lt_pow2; lia).
  assert (Hf : fexp Py.prec Py.emax (Z.log2 (Zpos p) + 1) = Z.log2 (Zpos p) - 52)
    by (unfold fexp, emin, Py.prec, Py.emax; lia).
  rewrite Hf. unfold shl_align.
  destruct (Z.log2 (Zpos p) - 52 - 0) as [|dp|dn] eqn:Hd.
  - (* 2^52 <= p < 2^53: already 53 bits *)
    assert (HL : Z.log2 (Zpos p) = 52) by lia.
    rewrite HL in Hlo, Hhi. simpl in Hlo, Hhi.
    destruct (round_aux_wide sx (Zpos p) 0 loc_Exact ltac:(lia) ltac:(lia)
                ltac:(rewrite HL; lia)) as [M [E [Hr [HM [HE [HW Hex]]]]]].
    rewrite HL in HE, Hex. destruct (Hex eq_refl eq_refl) as [HMp HE0].
    exists M, E. split; [exact Hr|]. split; [exact HM|]. split; [lia|].
    left. subst E. split; [lia|]. split; [lia|]. simpl. lia.
  - (* more than 53 bits: rounded *)
    assert (H53 : 2 ^ 53 <= Zpos p).
    { eapply Z.le_trans; [|exact Hlo]. apply Z.pow_le_mono_r; lia. }
    destruct (round_aux_wide sx (Zpos p) 0 loc_Exact ltac:(lia) ltac:(lia) ltac:(lia))
      as [M [E [Hr [HM [HE _]]]]].
    exists M, E. split; [exact Hr|]. split; [exact HM|]. split; [lia|].
    right. split; lia.
  - (* fewer than 53 bits: shifted left, exact *)
    set (q := Zpos (Pos.iter xO p dn)).
    assert (Hq : q = Zpos p * 2 ^ (52 - Z.log2 (Zpos p))).
    { unfold q. rewrite iter_xO_mul. f_equal. f_equal. lia. }
    assert (HP : 2 ^ (52 - Z.log2 (Zpos p)) * 2 ^ Z.log2 (Zpos p) = 2 ^ 52)
      by (rewrite <- Z.pow_add_r by lia; f_equal; lia).
    assert (HP' : 2 ^ (52 - Z.log2 (Zpos p)) * 2 ^ Z.succ (Z.log2 (Zpos p)) = 2 ^ 53)
      by (rewrite <- Z.pow_add_r by lia; f_equal; lia).
    assert (Hqb : 2 ^ 52 <= q < 2 ^ 53) by nia.
    assert (HLq : Z.log2 q = 52) by (apply log2_between; lia).
    destruct (round_aux_wide sx q (Z.log2 (Zpos p) - 52) loc_Exact ltac:(lia)
                ltac:(lia) ltac:(rewrite HLq; lia)) as [M [E [Hr [HM [HE [HW Hex]]]]]].
    rewrite HLq in HE, Hex. destruct (Hex eq_refl eq_refl) as [HMq HEq].
    exists M, E. split; [exact Hr|]. split; [exact HM|]. split; [lia|].
    left. split.
    + eapply Z.lt_le_trans; [exact Hhi|]. apply Z.pow_le_mono_r; lia.
    + split; [lia|]. rewrite HMq, Hq, HEq. f_equal. f_equal. lia.
Qed.

Lemma float_of_int_finite (sx : bool) (p : positive) :
  binary_normalize Py.prec Py.emax (if sx then Zneg p else Zpos p) 0 false
  = binary_round Py.prec Py.emax sx p 0.
Proof. destruct sx; reflexivity. Qed.

(** [float(d)] never overflows for [|d| < 2^64]. *)
Lemma float_of_int_64 (d : Z) :
  - 2 ^ 64 < d < 2 ^ 64 -> exists f, Py.float_of_int d = Ret f.
Proof.
  intros Hd. unfold Py.float_of_int.
  destruct d as [|p|p].
  - eexists. reflexivity.
  - destruct (binary_round_int false p ltac:(lia)) as [M [E [Hr _]]].
    rewrite (float_of_int_finite false p), Hr. eexists. reflexivity.
  - destruct (binary_round_int true p ltac:(lia)) as [M [E [Hr _]]].
    rewrite (float_of_int_finite true p), Hr. eexists. reflexivity.
Qed.

Lemma lit_1000000 : Py.lit 1000000 = S754_finite false 8589934592000000 (-33).
Proof. vm_compute. reflexivity. Qed.

Lemma lit_30 : Py.lit 30 = S754_finite false 8444249301319680 (-48).
Proof. vm_compute. reflexivity. Qed.

Lemma div_eucl_pair (a b : Z) : Z.div_eucl a b = (a / b, a mod b).
Proof. unfold Z.div, Z.modulo. destruct (Z.div_eucl a b). reflexivity. Qed.

(** Dividing a normal float [M1 * 2^E1] by [1000000.0]: the quotient is
    rounded from the integer [M1 * 2^20 / 10^6] at exponent [E1 - 20]. *)
Lemma fdiv_1000000 (sx : bool) (M1 : positive) (E1 : Z) :
  2 ^ 52 <= Zpos M1 < 2 ^ 53 -> -1000 <= E1 <= 100 ->
  exists M E, Py.fdiv (S754_finite sx M1 E1) (Py.lit 1000000) = S754_finite sx M E /\
    2 ^ 52 <= Zpos M < 2 ^ 53 /\ E1 - 20 <= E /\
    Zpos M1 * 2 ^ 20 / 1000000 - 2 < Zpos M * 2 ^ (E - (E1 - 20))
      <= Zpos M1 * 2 ^ 20 / 1000000 + 2.
Proof.
  intros HM1 HE1. rewrite lit_1000000. unfold Py.fdiv, SFdiv, SFdiv_core_binary.
  change (Zdigits2 (Zpos M1)) with (Zpos (digits2_pos M1)).
  rewrite digits2_pos_log2.
  rewrite (log2_between (Zpos M1) 52) by lia.
  change (Zdigits2 (Zpos 8589934592000000)) with 53.
  replace (Z.min (fexp Py.prec Py.emax (52 + 1 + E1 - (53 + -33))) (E1 - -33))
    with (E1 - 20) by (unfold fexp, emin, Py.prec, Py.emax; lia).
  replace (E1 - -33 - (E1 - 20)) with 53 by lia.
  rewrite Z.shiftl_mul_pow2 by lia. rewrite div_eucl_pair.
  rewrite Bool.xorb_false_r.
  set (q := Zpos M1 * 2 ^ 53 / Zpos 8589934592000000).
  assert (Hq : q = Zpos M1 * 2 ^ 20 / 1000000).
  { unfold q. change (Zpos 8589934592000000) with (1000000 * 2 ^ 33).
    replace (2 ^ 53) with (2 ^ 20 * 2 ^ 33) by reflexivity.
    rewrite Z.mul_assoc. apply Z.div_mul_cancel_r; lia. }
  assert (Hqb : 2 ^ 52 <= q < 2 ^ 54).
  { rewrite Hq. split.
    - apply Z.div_le_lower_bound; lia.
    - apply Z.div_lt_upper_bound; lia. }
  assert (Hk : Z.log2 q = 52 \/ Z.log2 q = 53).
  { destruct (Z.lt_ge_cases q (2 ^ 53)).
    - left. apply log2_between; lia.
    - right. apply log2_between; lia. }
  destruct (round_aux_wide sx q (E1 - 20)
              (new_location (Zpos 8589934592000000)
                 (Zpos M1 * 2 ^ 53 mod Zpos 8589934592000000))
              ltac:(lia) ltac:(lia) ltac:(lia)) as [M [E [Hr [HM [HE [HW _]]]]]].
  exists M, E. split; [exact Hr|]. split; [exact HM|]. split; [lia|].
  rewrite <- Hq.
  assert (H2k : 2 ^ (Z.log2 q - 52) <= 2)
    by (destruct Hk as [Hk|Hk]; rewrite Hk; simpl; lia).
  lia.
Qed.

(** [30 < x] for a positive normal float [x = M * 2^E]. *)
Lemma flt30_above (M : positive) (E : Z) :
  -48 < E -> Py.flt (Py.lit SESSION_GAP_SECONDS) (S754_finite false M E) = true.
Proof.
  intros HE. unfold SESSION_GAP_SECONDS. rewrite lit_30.
  unfold Py.flt, SFltb, SFcompare.
  destruct (Z.compare_spec (-48) E); [lia|reflexivity|lia].
Qed.

Lemma flt30_exact (M : positive) (E b : Z) :
  2 ^ 52 <= Zpos M < 2 ^ 53 -> b <= E -> b <= -48 ->
  Py.flt (Py.lit SESSION_GAP_SECONDS) (S754_finite false M E)
  = (30 * 2 ^ (- b) <? Zpos M * 2 ^ (E - b)).
Proof.
  intros HM HbE Hb. unfold SESSION_GAP_SECONDS. rewrite lit_30.
  unfold Py.flt, SFltb, SFcompare.
  assert (HP : 2 ^ (- b) = 2 ^ 48 * 2 ^ (- 48 - b))
    by (rewrite <- Z.pow_add_r by lia; f_equal; lia).
  assert (HP0 : 0 < 2 ^ (- 48 - b)) by (apply Z.pow_pos_nonneg; lia).
  rewrite HP. change (2 ^ 48) with 281474976710656.
  remember (2 ^ (- 48 - b)) as P eqn:EP. clear HP.
  rewrite Z.mul_assoc. change (30 * 281474976710656) with 8444249301319680.
  assert (HM0 : 0 <= Zpos M) by apply Pos2Z.is_nonneg.
  assert (HP1 : 0 <= P) by apply (Z.lt_le_incl _ _ HP0).
  destruct (Z.compare_spec (-48) E) as [HE|HE|HE].
  - subst E. rewrite <- EP. change (Pos.compare_cont Eq 8444249301319680 M)
      with (Pos.compare 8444249301319680 M).
    destruct (Pos.compare_spec 8444249301319680 M) as [Hc|Hc|Hc].
    + subst M. symmetry. apply Z.ltb_irrefl.
    + symmetry. apply Z.ltb_lt. pose proof (Pos2Z.pos_lt_pos _ _ Hc) as Hc'.
      exact (proj1 (Z.mul_lt_mono_pos_r P 8444249301319680 (Zpos M) HP0) Hc').
    + symmetry. apply Z.ltb_ge. pose proof (Pos2Z.pos_lt_pos _ _ Hc) as Hc'.
      exact (Z.mul_le_mono_nonneg_r (Zpos M) 8444249301319680 P HP1 (Z.lt_le_incl _ _ Hc')).
  - symmetry. apply Z.ltb_lt.
    assert (HQ : 2 ^ (E - b) = 2 ^ (E + 48) * P)
      by (clear - EP HE HbE Hb; rewrite EP, <- Z.pow_add_r by lia; f_equal; lia).
    assert (H2 : 2 <= 2 ^ (E + 48))
      by (clear - HE; change 2 with (2 ^ 1) at 1; apply Z.pow_le_mono_r; lia).
    rewrite HQ, Z.mul_assoc.
    refine (proj1 (Z.mul_lt_mono_pos_r P 8444249301319680 (Zpos M * 2 ^ (E + 48)) HP0) _).
    pose proof (Z.mul_le_mono_nonneg_l 2 (2 ^ (E + 48)) (Zpos M) HM0 H2) as H3.
    clear - HM H3. lia.
  - symmetry. apply Z.ltb_ge.
    assert (HQ : 2 ^ (E - b) * 2 ^ (- 48 - E) = P)
      by (clear - EP HE HbE Hb; rewrite EP, <- Z.pow_add_r by lia; f_equal; lia).
    assert (H2 : 2 <= 2 ^ (- 48 - E))
      by (clear - HE; change 2 with (2 ^ 1) at 1; apply Z.pow_le_mono_r; lia).
    assert (HQ0 : 0 <= 2 ^ (E - b)) by (clear - HbE; apply Z.pow_nonneg; lia).
    remember (2 ^ (E - b)) as Q. remember (2 ^ (- 48 - E)) as R.
    pose proof (Z.mul_le_mono_nonneg_l 2 R (Zpos M * Q) (Z.mul_nonneg_nonneg _ _ HM0 HQ0) H2) as HA.
    assert (HB : Zpos M * (Q * R) <= 2 ^ 53 * P)
      by (rewrite HQ;
          exact (Z.mul_le_mono_nonneg_r (Zpos M) (2 ^ 53) P HP1 (Z.lt_le_incl _ _ (proj2 HM)))).
    rewrite Z.mul_assoc in HB. change (2 ^ 53) with 9007199254740992 in HB.
    clear - HA HB HP1. lia.
Qed.

(** The gap test of [detect_sessions] on 64-bit timestamp differences:
    [(ts_i - ts_prev) / 1_000_000.0 > 30] holds exactly when the
    difference exceeds 30 000 000 microseconds. *)
Lemma gap_exceeds_int (a b : Z) :
  0 <= b - a < 2 ^ 64 -> gap_exceeds a b = Ret (30000000 <? b - a).
Proof.
  intros Hd. unfold gap_exceeds.
  destruct (Z.eq_dec (b - a) 30000000) as [H30|H30].
  { rewrite H30. vm_compute. reflexivity. }
  remember (b - a) as d eqn:Ed. clear Ed.
  destruct d as [|p|p]; [vm_compute; reflexivity| |lia].
  unfold Py.float_of_int. rewrite (float_of_int_finite false p).
  destruct (binary_round_int false p ltac:(lia)) as [M1 [E1 [Hr [HM1 [HE1 Hcase]]]]].
  rewrite Hr. cbv beta iota delta [exc_bind].
  assert (HE1lo : -53 < E1).
  { destruct Hcase as [[Hp [HE0 HM1p]]|[_ HE0]]; [|lia].
    assert (HPow : 2 ^ (- E1) < 2 ^ 53).
    { assert (Zpos p * 2 ^ (- E1) >= 1 * 2 ^ (- E1)).
      { apply Z.le_ge, Z.mul_le_mono_nonneg_r; [apply Z.pow_nonneg|]; lia. }
      clear - HM1 HM1p H. lia. }
    apply Z.pow_lt_mono_r_iff in HPow; lia. }
  destruct (fdiv_1000000 false M1 E1 HM1 ltac:(lia)) as [M [E [Hdv [HM [HE HW]]]]].
  rewrite Hdv. f_equal.
  destruct (Z.le_gt_cases (-27) E1) as [Hbig|Hsmall].
  - rewrite flt30_above by lia. symmetry. apply Z.ltb_lt.
    destruct Hcase as [[Hp [HE0 HM1p]]|[Hp _]]; [|lia].
    assert (H27 : 2 ^ (- E1) <= 2 ^ 27) by (apply Z.pow_le_mono_r; lia).
    assert (Zpos p * 2 ^ (- E1) <= Zpos p * 2 ^ 27)
      by (apply Z.mul_le_mono_nonneg_l; lia).
    change (2 ^ 27) with 134217728 in *. change (2 ^ 52) with 4503599627370496 in HM1.
    clear - HM1 HM1p H H30. lia.
  - destruct Hcase as [[Hp [HE0 HM1p]]|[_ HE0]]; [|lia].
    rewrite (flt30_exact M E (E1 - 20) HM HE ltac:(lia)).
    remember (2 ^ (- E1)) as P eqn:EP.
    assert (HP28 : 2 ^ 28 <= P) by (rewrite EP; apply Z.pow_le_mono_r; lia).
    assert (HT : 2 ^ (- (E1 - 20)) = 2 ^ 20 * P)
      by (rewrite EP, <- Z.pow_add_r by lia; f_equal; lia).
    rewrite HT. rewrite HM1p in HW.
    remember (Zpos M * 2 ^ (E - (E1 - 20))) as W.
    set (Y := P * 2 ^ 20).
    assert (HX : Zpos p * P * 2 ^ 20 = Zpos p * Y) by (unfold Y; ring).
    rewrite HX in HW.
    set (q := Zpos p * Y / 1000000) in HW.
    assert (Hq1 : 1000000 * q <= Zpos p * Y) by (apply Z.mul_div_le; lia).
    assert (Hq2 : Zpos p * Y < 1000000 * (q + 1))
      by (rewrite Z.add_1_r; apply Z.mul_succ_div_gt; lia).
    assert (HY : 2 ^ 48 <= Y)
      by (unfold Y; change (2 ^ 48) with (2 ^ 28 * 2 ^ 20);
          apply Z.mul_le_mono_nonneg_r; lia).
    replace (30 * (2 ^ 20 * P)) with (30 * Y) by (unfold Y; ring).
    change (2 ^ 48) with 281474976710656 in HY.
    destruct (Z.lt_total (Zpos p) 30000000) as [Hlt|[Hgt|Hgt]].
    + assert (HpY : Zpos p * Y <= 29999999 * Y)
        by (apply Z.mul_le_mono_nonneg_r; lia).
      replace (30000000 <? Zpos p) with false by (symmetry; apply Z.ltb_ge; lia).
      apply Z.ltb_ge. clear - HW Hq1 HpY HY. lia.
    + lia.
    + assert (HpY : 30000001 * Y <= Zpos p * Y)
        by (apply Z.mul_le_mono_nonneg_r; lia).
      replace (30000000 <? Zpos p) with true by (symmetry; apply Z.ltb_lt; lia).
      apply Z.ltb_lt. clear - HW Hq2 HpY HY. lia.
Qed.

(** ** Session segmentation *)

Lemma gap_exceeds_ret (a b : Z) :
  - 2 ^ 64 < b - a < 2 ^ 64 -> exists f, gap_exceeds a b = Ret f.
Proof.
  intros Hd. destruct (float_of_int_64 (b - a) Hd) as [f Hf].
  unfold gap_exceeds. rewrite Hf. eexists. reflexivity.
Qed.

Lemma ts_in_range_diff (p q : packet) :
  ts_in_range p -> ts_in_range q -> - 2 ^ 64 < ts_us q - ts_us p < 2 ^ 64.
Proof.
  unfold ts_in_range, DATETIME_MIN_US, DATETIME_MAX_US. intros Hp Hq.
  change (2 ^ 64) with 18446744073709551616. lia.
Qed.

Lemma gaps_ret (prev : packet) (rest : list packet) :
  Forall ts_in_range (prev :: rest) ->
  exists bs, gaps prev rest = Ret bs /\ length bs = length rest.
Proof.
  revert prev. induction rest as [|p rest IH]; intros prev Hall.
  - exists []. split; reflexivity.
  - inversion Hall as [|? ? Hprev Hrest]; subst.
    inversion Hrest as [|? ? Hp Hrest']; subst.
    destruct (gap_exceeds_ret (ts_us prev) (ts_us p) (ts_in_range_diff prev p Hprev Hp))
      as [b Hb].
    destruct (IH p Hrest) as [bs [Hbs Hlen]].
    exists (b :: bs). simpl. rewrite Hb. simpl. rewrite Hbs. simpl.
    split; [reflexivity|]. rewrite Hlen. reflexivity.
Qed.

Lemma sessions_loop_gaps (prev : packet) (rest : list packet) (i start : nat)
  (acc : list (nat * nat)) (bs : list bool) :
  gaps prev rest = Ret bs ->
  exists sess st, sessions_loop prev rest i start acc = Ret (sess, st) /\
    sess ++ [(st, i + length rest - 1)%nat] = acc ++ session_ranges start i bs.
Proof.
  revert prev i start acc bs.
  induction rest as [|p rest IH]; intros prev i start acc bs Hg.
  - simpl in Hg. inversion Hg; subst. exists acc, start. split; [reflexivity|].
    simpl. do 3 f_equal. lia.
  - simpl in Hg.
    destruct (gap_exceeds (ts_us prev) (ts_us p)) as [b|[]] eqn:Hb; simpl in Hg;
      [|discriminate].
    destruct (gaps p rest) as [bs'|[]] eqn:Hbs; simpl in Hg; [|discriminate].
    inversion Hg; subst. simpl. rewrite Hb. simpl.
    destruct b.
    + destruct (IH p (S i) i (acc ++ [(start, i - 1)%nat]) bs' Hbs)
        as [sess [st [Hl He]]].
      exists sess, st. split; [exact Hl|].
      replace (i + S (length rest) - 1)%nat with (S i + length rest - 1)%nat by lia.
      rewrite He, <- app_assoc. reflexivity.
    + destruct (IH p (S i) start acc bs' Hbs) as [sess [st [Hl He]]].
      exists sess, st. split; [exact Hl|].
      replace (i + S (length rest) - 1)%nat with (S i + length rest - 1)%nat by lia.
      exact He.
Qed.

Lemma detect_sessions_gaps (p0 : packet) (rest : list packet) (bs : list bool) :
  gaps p0 rest = Ret bs -> detect_sessions (p0 :: rest) = Ret (session_ranges 0 1 bs).
Proof.
  intros Hg. destruct (sessions_loop_gaps p0 rest 1 0 [] bs Hg) as [sess [st [Hl He]]].
  simpl. rewrite Hl. simpl. f_equal.
  replace (length rest - 0)%nat with (1 + length rest - 1)%nat by lia. exact He.
Qed.

Lemma session_ranges_cover (start i : nat) (bs : list bool) :
  (start < i)%nat ->
  flat_map session_indices (session_ranges start i bs) = seq start (i + length bs - start)
  /\ Forall (fun r => (fst r <= snd r)%nat) (session_ranges start i bs).
Proof.
  revert start i. induction bs as [|b bs IH]; intros start i Hi.
  - cbn [session_ranges flat_map session_indices length]. rewrite app_nil_r. split.
    + f_equal. lia.
    + constructor; [simpl; lia|constructor].
  - destruct b; cbn [session_ranges flat_map session_indices length].
    + destruct (IH i (S i) ltac:(lia)) as [Hc Hf]. split.
      * rewrite Hc.
        replace (i + S (length bs) - start)%nat with ((i - start) + (S (length bs)))%nat
          by lia.
        rewrite seq_app. f_equal.
        -- f_equal. lia.
        -- replace (start + (i - start))%nat with i by lia. f_equal. lia.
      * constructor; [simpl; lia|exact Hf].
    + destruct (IH start (S i) ltac:(lia)) as [Hc Hf].
      replace (i + S (length bs) - start)%nat with (S i + length bs - start)%nat by lia.
      split; assumption.
Qed.

Lemma session_ranges_starts (start i : nat) (bs : list bool) (s e : nat) :
  (start <= i)%nat -> In (s, e) (session_ranges start i bs) -> (start <= s)%nat.
Proof.
  revert start i. induction bs as [|b bs IH]; intros start i Hi Hin.
  - simpl in Hin. destruct Hin as [Heq|[]]. inversion Heq. lia.
  - destruct b; simpl in Hin.
    + destruct Hin as [Heq|Hin].
      * inversion Heq. lia.
      * pose proof (IH i (S i) ltac:(lia) Hin). lia.
    + exact (IH start (S i) ltac:(lia) Hin).
Qed.

Lemma session_ranges_head (start i : nat) (bs : list bool) :
  exists e R, session_ranges start i bs = (start, e) :: R /\ (i - 1 <= e)%nat.
Proof.
  revert start i. induction bs as [|b bs IH]; intros start i.
  - exists (i - 1)%nat, []. split; [reflexivity|lia].
  - destruct b; simpl.
    + eexists _, _. split; [reflexivity|lia].
    + destruct (IH start (S i)) as [e [R [Heq He]]].
      exists e, R. split; [exact Heq|lia].
Qed.

Lemma session_ranges_same (start i : nat) (bs : list bool) (m : nat) :
  (start < i)%nat -> (m < length bs)%nat ->
  (same_session (session_ranges start i bs) (i + m - 1) (i + m) <->
   nth m bs false = false).
Proof.
  revert start i m. induction bs as [|b bs IH]; intros start i m Hi Hm.
  - simpl in Hm. lia.
  - destruct m as [|m]; destruct b; simpl.
    + split; [|discriminate].
      intros [s [e [Hin [H1 H2]]]]. simpl in Hin. destruct Hin as [Heq|Hin].
      * inversion Heq. lia.
      * pose proof (session_ranges_starts i (S i) bs s e ltac:(lia) Hin). lia.
    + split; [reflexivity|intros _].
      destruct (session_ranges_head start (S i) bs) as [e [R [Heq He]]].
      rewrite Heq. exists start, e. split; [left; reflexivity|]. lia.
    + simpl in Hm.
      replace (i + S m - 1)%nat with (S i + m - 1)%nat by lia.
      replace (i + S m)%nat with (S i + m)%nat by lia.
      rewrite <- (IH i (S i) m ltac:(lia) ltac:(lia)).
      split.
      * intros [s [e [Hin [H1 H2]]]]. simpl in Hin. destruct Hin as [Heq|Hin].
        -- inversion Heq. lia.
        -- exists s, e. auto.
      * intros [s [e [Hin [H1 H2]]]]. exists s, e. split; [right; exact Hin|auto].
    + simpl in Hm.
      replace (i + S m - 1)%nat with (S i + m - 1)%nat by lia.
      replace (i + S m)%nat with (S i + m)%nat by lia.
      apply IH; lia.
Qed.

(** On non-decreasing timestamps, the [k]-th decision compares the
    [k]-th and [k+1]-th timestamps' difference with 30 seconds. *)
Lemma gaps_values (prev : packet) (rest : list packet) (bs : list bool) :
  Forall ts_in_range (prev :: rest) ->
  (forall k, (S k < length (prev :: rest))%nat ->
     ts_at (prev :: rest) k <= ts_at (prev :: rest) (S k)) ->
  gaps prev rest = Ret bs ->
  forall k, (k < length rest)%nat ->
    nth k bs false
    = (30000000 <? ts_at (prev :: rest) (S k) - ts_at (prev :: rest) k).
Proof.
  revert prev bs. induction rest as [|p rest IH]; intros prev bs Hall Hsort Hg k Hk.
  - simpl in Hk. lia.
  - inversion Hall as [|? ? Hprev Hrest]; subst.
    inversion Hrest as [|? ? Hp _]; subst.
    assert (Hle : ts_us prev <= ts_us p) by exact (Hsort 0%nat ltac:(simpl; lia)).
    pose proof (ts_in_range_diff prev p Hprev Hp) as Hd.
    simpl in Hg. rewrite gap_exceeds_int in Hg by lia. simpl in Hg.
    destruct (gaps p rest) as [bs'|[]] eqn:Hbs; simpl in Hg; [|discriminate].
    inversion Hg; subst.
    destruct k as [|k].
    + reflexivity.
    + simpl in Hk. simpl nth.
      rewrite (IH p bs' Hrest) by (try exact Hbs; try lia;
        intros k' Hk'; exact (Hsort (S k') ltac:(simpl in *; lia))).
      reflexivity.
Qed.

Lemma att_packet_ts (dt t flags : Z) (data : list Z) (p : packet) :
  att_packet dt t flags data = Some p -> ts_us p = t.
Proof.
  unfold att_packet.
  repeat match goal with
  | |- context [if ?c then _ else _] => destruct c
  end; intros H; inversion H; reflexivity.
Qed.

Lemma add_epoch_range (t dt : Z) :
  add_epoch t = Ret dt -> DATETIME_MIN_US <= t < DATETIME_MAX_US.
Proof.
  unfold add_epoch.
  destruct (DATETIME_MIN_US <=? t) eqn:H1; destruct (t <? DATETIME_MAX_US) eqn:H2;
    simpl; intros H; try discriminate.
  apply Z.leb_le in H1. apply Z.ltb_lt in H2. lia.
Qed.

(** Every packet [parse_btsnoop] returns carries a timestamp in the
    [datetime] range. *)
Lemma read_records_ts (fuel : nat) (rest : list Z) (ps : list packet) :
  read_records fuel rest = Ret ps -> Forall ts_in_range ps.
Proof.
  revert rest ps. induction fuel as [|fuel IH]; intros rest ps H; cbn [read_records] in H.
  - inversion H. constructor.
  - destruct (Nat.ltb (length (firstn 24 rest)) 24); [inversion H; constructor|].
    match type of H with
    | context [if Nat.ltb ?a ?b then _ else _] => destruct (Nat.ltb a b)
    end; [inversion H; constructor|].
    destruct (add_epoch _) as [dt|[]] eqn:Ha; cbn [exc_bind] in H; [|discriminate].
    apply add_epoch_range in Ha.
    match type of H with
    | context [att_packet ?a ?b ?c ?d] => destruct (att_packet a b c d) as [p|] eqn:Hp
    end.
    + destruct (read_records fuel _) as [ps'|[]] eqn:Hr; cbn [exc_bind] in H;
        [|discriminate].
      inversion H; subst. constructor; [|exact (IH _ _ Hr)].
      apply att_packet_ts in Hp. unfold ts_in_range. rewrite Hp. exact Ha.
    + exact (IH _ _ H).
Qed.

Lemma parse_btsnoop_ts (filepath : string) (contents : list Z) (out : list string)
  (ps : list packet) :
  parse_btsnoop filepath contents = Ret (out, ps) -> Forall ts_in_range ps.
Proof.
  unfold parse_btsnoop. destruct (length (firstn 16 contents) <? 16)%nat.
  - intros H. inversion H. constructor.
  - destruct (read_records _ _) as [ps'|[]] eqn:Hr; simpl; intros H; [|discriminate].
    inversion H; subst. exact (read_records_ts _ _ _ Hr).
Qed.

(** ** C6: sessions partition the packet indices *)

(** C6: for every packet sequence whose timestamps [parse_btsnoop] can
    produce, [detect_sessions] returns (without raising) a list of nonempty
    index ranges [(s, e)] whose index lists [range(s, e + 1)], concatenated
    in order, are exactly [0, 1, ..., len(packets) - 1]: the ranges are
    ordered, disjoint, gap-free and cover every packet exactly once. No
    packet gives no session; one packet gives the single session [(0, 0)].
    The timestamp range holds for every packet [parse_btsnoop] returns
    ([parse_btsnoop_ts]). *)
Theorem detect_sessions_partition (ps : list packet) :
  Forall ts_in_range ps ->
  exists ss, detect_sessions ps = Ret ss /\
    flat_map session_indices ss = seq 0 (length ps) /\
    Forall (fun r => (fst r <= snd r)%nat) ss /\
    (ps = [] -> ss = []) /\
    (length ps = 1%nat -> ss = [(0%nat, 0%nat)]).
Proof.
  intros Hall. destruct ps as [|p0 rest].
  - exists []. split; [reflexivity|]. split; [reflexivity|].
    split; [constructor|]. split; [reflexivity|]. simpl. discriminate.
  - destruct (gaps_ret p0 rest Hall) as [bs [Hg Hlen]].
    exists (session_ranges 0 1 bs). split; [exact (detect_sessions_gaps _ _ _ Hg)|].
    destruct (session_ranges_cover 0 1 bs ltac:(lia)) as [Hc Hf].
    split; [rewrite Hc, Hlen; f_equal; simpl; lia|].
    split; [exact Hf|]. split; [discriminate|].
    intros H1. simpl in H1. destruct rest as [|p1 rest]; [|simpl in H1; lia].
    destruct bs as [|b bs]; [reflexivity|simpl in Hlen; discriminate].
Qed.

Lemma detect_sessions_partition_witness :
  Forall ts_in_range (map packet_at [0; 5000000; 90000000]) /\
  exists ss, detect_sessions (map packet_at [0; 5000000; 90000000]) = Ret ss /\
    flat_map session_indices ss = seq 0 (length (map packet_at [0; 5000000; 90000000])) /\
    Forall (fun r => (fst r <= snd r)%nat) ss /\
    (map packet_at [0; 5000000; 90000000] = [] -> ss = []) /\
    (length (map packet_at [0; 5000000; 90000000]) = 1%nat -> ss = [(0%nat, 0%nat)]).
Proof.
  assert (H : Forall ts_in_range (map packet_at [0; 5000000; 90000000])).
  { repeat constructor; unfold ts_in_range, DATETIME_MIN_US, DATETIME_MAX_US; simpl; lia. }
  split; [exact H|]. apply (detect_sessions_partition _ H).
Defined.

(** ** C3: a new session exactly after a gap of more than 30 seconds *)

(** C3: for packets with non-decreasing timestamps (in the range
    [parse_btsnoop] produces), [detect_sessions] puts packets [i - 1] and
    [i] in different sessions if and only if
    [ts_us[i] - ts_us[i - 1] > 30_000_000]; and on the timestamps
    [0, 1_000_000, 40_000_000, 41_000_000] it returns exactly
    [(0, 1), (2, 3)]. *)
Theorem detect_sessions_gap_iff (ps : list packet) :
  Forall ts_in_range ps ->
  (forall i, (0 < i < length ps)%nat -> ts_at ps (i - 1) <= ts_at ps i) ->
  exists ss, detect_sessions ps = Ret ss /\
    (forall i, (0 < i < length ps)%nat ->
       (~ same_session ss (i - 1) i <-> 30000000 < ts_at ps i - ts_at ps (i - 1))) /\
    detect_sessions session_example
    = Ret [(0%nat, 1%nat); (2%nat, 3%nat)].
Proof.
  intros Hall Hsort.
  assert (Hex : detect_sessions session_example
                = Ret [(0%nat, 1%nat); (2%nat, 3%nat)]) by (vm_compute; reflexivity).
  destruct ps as [|p0 rest].
  - exists []. split; [reflexivity|]. split; [|exact Hex].
    intros i Hi. simpl in Hi. lia.
  - destruct (gaps_ret p0 rest Hall) as [bs [Hg Hlen]].
    exists (session_ranges 0 1 bs). split; [exact (detect_sessions_gaps _ _ _ Hg)|].
    split; [|exact Hex].
    intros i Hi. destruct i as [|m]; [lia|].
    simpl in Hi.
    pose proof (session_ranges_same 0 1 bs m ltac:(lia) ltac:(lia)) as Hs.
    replace (1 + m - 1)%nat with m in Hs by lia.
    replace (1 + m)%nat with (S m) in Hs by lia.
    replace (S m - 1)%nat with m by lia.
    rewrite Hs.
    assert (Hsort' : forall k, (S k < length (p0 :: rest))%nat ->
              ts_at (p0 :: rest) k <= ts_at (p0 :: rest) (S k)).
    { intros k Hk. pose proof (Hsort (S k) ltac:(lia)) as Hk'.
      replace (S k - 1)%nat with k in Hk' by lia. exact Hk'. }
    rewrite (gaps_values p0 rest bs Hall Hsort' Hg m ltac:(lia)).
    destruct (Z.ltb_spec 30000000 (ts_at (p0 :: rest) (S m) - ts_at (p0 :: rest) m));
      split; intros; try congruence; lia.
Qed.

Lemma detect_sessions_gap_iff_witness :
  Forall ts_in_range session_example /\
  (forall i, (0 < i < length session_example)%nat ->
     ts_at session_example (i - 1)
     <= ts_at session_example i) /\
  exists ss, detect_sessions session_example = Ret ss /\
    (forall i, (0 < i < length session_example)%nat ->
       (~ same_session ss (i - 1) i <->
        30000000 < ts_at session_example i
                   - ts_at session_example (i - 1))) /\
    detect_sessions session_example
    = Ret [(0%nat, 1%nat); (2%nat, 3%nat)].
Proof.
  assert (H1 : Forall ts_in_range session_example).
  { unfold session_example.
    repeat constructor; unfold ts_in_range, DATETIME_MIN_US, DATETIME_MAX_US; simpl; lia. }
  assert (H2 : forall i, (0 < i < length session_example)%nat ->
     ts_at session_example (i - 1)
     <= ts_at session_example i).
  { unfold session_example. intros i Hi. simpl in Hi.
    unfold ts_at; destruct i as [|[|[|[|i]]]]; simpl; lia. }
  split; [exact H1|]. split; [exact H2|].
  apply (detect_sessions_gap_iff _ H1 H2).
Defined.

(** * Further properties of the code *)

(** ** [decode_varint] *)

Lemma lor_lt_pow2 (a b n : Z) :
  0 <= a < 2 ^ n -> 0 <= b < 2 ^ n -> 0 <= Z.lor a b < 2 ^ n.
Proof.
  intros Ha Hb. split; [apply Z.lor_nonneg; lia|].
  destruct (Z.eq_dec (Z.lor a b) 0) as [H0|H0]; [rewrite H0; lia|].
  assert (Hpos : 0 < Z.lor a b) by (pose proof (Z.lor_nonneg a b); lia).
  apply Z.log2_lt_pow2; [exact Hpos|].
  rewrite Z.log2_lor by lia.
  assert (Hn : 0 < n).
  { destruct (Z.lt_ge_cases 0 n) as [|Hn]; [assumption|].
    assert (2 ^ n <= 1).
    { destruct (Z.eq_dec n 0) as [->|]; [simpl; lia|rewrite Z.pow_neg_r; lia]. }
    exfalso. destruct (Z.eq_dec a 0); destruct (Z.eq_dec b 0); subst;
      [apply H0; reflexivity|lia|lia|lia]. }
  apply Z.max_lub_lt.
  - destruct (Z.eq_dec a 0) as [->|]; [simpl; lia|apply Z.log2_lt_pow2; lia].
  - destruct (Z.eq_dec b 0) as [->|]; [simpl; lia|apply Z.log2_lt_pow2; lia].
Qed.

Lemma decode_varint_loop_bound (bs : list Z) :
  forall result shift consumed, 0 <= shift -> 0 <= result < 2 ^ shift ->
  let r := decode_varint_loop bs result shift consumed in
  0 <= fst r < 2 ^ (shift + 7 * (snd r - consumed)) /\
  consumed <= snd r <= consumed + Z.of_nat (length bs) /\
  (bs <> [] -> consumed + 1 <= snd r).
Proof.
  induction bs as [|b bs IH]; intros result shift consumed Hs Hr; cbn zeta.
  - cbn [decode_varint_loop fst snd length]. rewrite Z.sub_diag, Z.mul_0_r, Z.add_0_r.
    split; [lia|].
    split; [lia|]. intros H; exfalso; apply H; reflexivity.
  - simpl decode_varint_loop.
    set (r' := Z.lor result (Z.shiftl (Z.land b 127) shift)).
    assert (Hr' : 0 <= r' < 2 ^ (shift + 7)).
    { apply lor_lt_pow2.
      - split; [lia|]. eapply Z.lt_le_trans; [apply Hr|].
        apply Z.pow_le_mono_r; lia.
      - rewrite Z.shiftl_mul_pow2 by lia.
        assert (H127 : 0 <= Z.land b 127 < 128).
        { change 127 with (Z.ones 7). rewrite Z.land_ones by lia.
          apply Z.mod_pos_bound. lia. }
        rewrite Z.pow_add_r by lia. change (2 ^ 7) with 128. nia. }
    destruct (Z.land b 128 =? 0).
    + cbn [fst snd]. replace (shift + 7 * (consumed + 1 - consumed)) with (shift + 7) by lia.
      split; [exact Hr'|]. simpl length. rewrite Nat2Z.inj_succ. split; [lia|]. intros _. lia.
    + destruct (IH r' (shift + 7) (consumed + 1) ltac:(lia) Hr') as [H1 [H2 _]].
      simpl length. rewrite Nat2Z.inj_succ.
      replace (shift + 7 * (snd (decode_varint_loop bs r' (shift + 7) (consumed + 1))
                             - consumed))
        with (shift + 7 + 7 * (snd (decode_varint_loop bs r' (shift + 7) (consumed + 1))
                               - (consumed + 1))) by lia.
      split; [exact H1|]. split; [lia|]. intros _. lia.
Qed.

(** X1. [decode_varint(data, offset)] returns [(value, consumed)] with
    [consumed] at most the number of bytes left after [offset], [0] exactly
    when no byte is left, and [0 <= value < 2^(7 * consumed)]. *)
Theorem decode_varint_bounds (data : list Z) (offset : nat) :
  let '(v, n) := decode_varint data offset in
  0 <= n <= Z.of_nat (length data - offset) /\
  (n = 0 <-> (length data <= offset)%nat) /\
  0 <= v < 2 ^ (7 * n).
Proof.
  unfold decode_varint.
  destruct (decode_varint_loop_bound (skipn offset data) 0 0 0 ltac:(lia) ltac:(simpl; lia))
    as [H1 [H2 H3]].
  destruct (decode_varint_loop (skipn offset data) 0 0 0) as [v n].
  cbn [fst snd] in H1, H2, H3. rewrite length_skipn in H2.
  rewrite Z.add_0_l, Z.sub_0_r in H1. rewrite Z.add_0_l in H2, H3.
  split; [lia|]. split; [|exact H1].
  split.
  - intros Hn. destruct (Nat.le_gt_cases (length data) offset) as [|Hlt]; [assumption|].
    exfalso. assert (Hne : skipn offset data <> []).
    { intros He. apply (f_equal (@length Z)) in He. rewrite length_skipn in He.
      simpl in He. lia. }
    specialize (H3 Hne). lia.
  - intros Hle. assert (Hz : (length data - offset = 0)%nat) by lia. rewrite Hz in H2. lia.
Qed.

(** X2. Decoding the varint encoding of any nonnegative [v] at any offset
    inside a larger byte string gives back [v] and the encoding's length:
    the bytes before and after it play no part. *)
Theorem decode_varint_embedded (pre rest : list Z) (v : Z) :
  0 <= v ->
  decode_varint (pre ++ encode_varint v ++ rest) (length pre)
  = (v, Z.of_nat (length (encode_varint v))).
Proof.
  intros Hv. unfold decode_varint. rewrite skipn_app, skipn_all, Nat.sub_diag. simpl.
  unfold encode_varint. rewrite decode_varint_loop_encode.
  - rewrite Z.lor_0_l, Z.shiftl_0_r. reflexivity.
  - split; [lia|]. apply encode_varint_fuel_enough. lia.
  - lia.
Qed.

Lemma decode_varint_embedded_witness :
  0 <= 150 /\ decode_varint ([8] ++ encode_varint 150 ++ [16; 1]) 1 = (150, 2).
Proof.
  split; [lia|]. exact (decode_varint_embedded [8] [16; 1] 150 ltac:(lia)).
Defined.

Lemma decode_varint_loop_stop (pre rest : list Z) (t : Z) :
  Forall (fun b => Z.land b 128 <> 0) pre -> Z.land t 128 = 0 ->
  forall result shift consumed,
  decode_varint_loop (pre ++ t :: rest) result shift consumed
  = decode_varint_loop (pre ++ [t]) result shift consumed /\
  snd (decode_varint_loop (pre ++ [t]) result shift consumed)
  = consumed + Z.of_nat (length pre) + 1.
Proof.
  intros Hpre Ht. induction Hpre as [|b pre Hb Hpre IH]; intros result shift consumed.
  - simpl. rewrite Ht. simpl. split; [reflexivity|lia].
  - simpl. apply Z.eqb_neq in Hb. rewrite Hb.
    destruct (IH (Z.lor result (Z.shiftl (Z.land b 127) shift)) (shift + 7) (consumed + 1))
      as [H1 H2].
    split; [exact H1|]. rewrite H2. lia.
Qed.

Lemma decode_varint_loop_all_continue (bs : list Z) :
  Forall (fun b => Z.land b 128 <> 0) bs ->
  forall result shift consumed,
  snd (decode_varint_loop bs result shift consumed) = consumed + Z.of_nat (length bs).
Proof.
  induction 1 as [|b bs Hb Hbs IH]; intros result shift consumed.
  - simpl. lia.
  - simpl. apply Z.eqb_neq in Hb. rewrite Hb. rewrite IH. lia.
Qed.

(** X3. [decode_varint] reads up to and including the first byte with bit 7
    clear and nothing after it: the bytes that follow do not change the
    result, and [consumed] counts the bytes read. *)
Theorem decode_varint_stops (data pre rest : list Z) (t : Z) (offset : nat) :
  skipn offset data = pre ++ t :: rest ->
  Forall (fun b => Z.land b 128 <> 0) pre -> Z.land t 128 = 0 ->
  decode_varint data offset = decode_varint (pre ++ [t]) 0 /\
  snd (decode_varint data offset) = Z.of_nat (length pre) + 1.
Proof.
  intros Hsplit Hpre Ht.
  destruct (decode_varint_loop_stop pre rest t Hpre Ht 0 0 0) as [H1 H2].
  unfold decode_varint. rewrite Hsplit. cbn [skipn].
  split; [exact H1|]. rewrite H1, H2. lia.
Qed.

Lemma decode_varint_stops_witness :
  skipn 1 [7; 150; 1; 24; 5] = [150] ++ 1 :: [24; 5] /\
  Forall (fun b => Z.land b 128 <> 0) [150] /\ Z.land 1 128 = 0 /\
  decode_varint [7; 150; 1; 24; 5] 1 = decode_varint ([150] ++ [1]) 0 /\
  snd (decode_varint [7; 150; 1; 24; 5] 1) = Z.of_nat (length [150]) + 1.
Proof.
  assert (H1 : skipn 1 [7; 150; 1; 24; 5] = [150] ++ 1 :: [24; 5]) by reflexivity.
  assert (H2 : Forall (fun b => Z.land b 128 <> 0) [150])
    by (constructor; [vm_compute; discriminate|constructor]).
  assert (H3 : Z.land 1 128 = 0) by reflexivity.
  split; [exact H1|]. split; [exact H2|]. split; [exact H3|].
  exact (decode_varint_stops [7; 150; 1; 24; 5] [150] [24; 5] 1 1 H1 H2 H3).
Defined.

(** X4. A truncated varint is no error: when no byte from [offset] on has
    bit 7 clear, [decode_varint] consumes all the remaining bytes. *)
Theorem decode_varint_truncated (data : list Z) (offset : nat) :
  Forall (fun b => Z.land b 128 <> 0) (skipn offset data) ->
  snd (decode_varint data offset) = Z.of_nat (length data - offset).
Proof.
  intros Hall. unfold decode_varint.
  rewrite decode_varint_loop_all_continue by exact Hall.
  rewrite length_skipn. lia.
Qed.

Lemma decode_varint_truncated_witness :
  Forall (fun b => Z.land b 128 <> 0) (skipn 2 [10; 12; 200; 129]) /\
  snd (decode_varint [10; 12; 200; 129] 2) = Z.of_nat (length [10; 12; 200; 129] - 2).
Proof.
  assert (H : Forall (fun b => Z.land b 128 <> 0) (skipn 2 [10; 12; 200; 129])).
  { simpl. repeat constructor; vm_compute; discriminate. }
  split; [exact H|]. exact (decode_varint_truncated [10; 12; 200; 129] 2 H).
Defined.

(** ** [decode_sint32] *)

Lemma decode_sint32_cases (v : Z) :
  0 <= v ->
  decode_sint32 v = if Z.even v then v / 2 else - (v / 2) - 1.
Proof.
  intros Hv. unfold decode_sint32.
  assert (Hland1 : Z.land v 1 = v mod 2).
  { change 1 with (Z.ones 1). rewrite Z.land_ones by lia. reflexivity. }
  rewrite Hland1, (Z.shiftr_div_pow2 v 1) by lia. change (2 ^ 1) with 2.
  rewrite (Zmod_even v). destruct (Z.even v).
  - rewrite Z.lxor_0_r. reflexivity.
  - change (- 1) with (-1). rewrite Z.lxor_m1_r. unfold Z.lnot. lia.
Qed.

(** X5. On the unsigned 32-bit range, [decode_sint32] is a bijection onto
    the signed 32-bit range: for [0 <= v < 2^32] the result lies in
    [[-2^31, 2^31)], nonnegative exactly for even [v], and zig-zag encoding
    it gives back [v]. *)
Theorem decode_sint32_range_inverse (v : Z) :
  0 <= v < 2 ^ 32 ->
  - 2 ^ 31 <= decode_sint32 v < 2 ^ 31 /\
  (0 <= decode_sint32 v <-> Z.even v = true) /\
  encode_zigzag32 (decode_sint32 v) = v.
Proof.
  intros Hv. rewrite decode_sint32_cases by lia.
  pose proof (Z.div_mod v 2 ltac:(lia)) as Hdm.
  pose proof (Z.mod_pos_bound v 2 ltac:(lia)) as Hmb.
  rewrite (Zmod_even v) in Hdm.
  unfold encode_zigzag32.
  destruct (Z.even v) eqn:He.
  - split; [lia|]. split; [split; [reflexivity|lia]|].
    rewrite Z.shiftl_mul_pow2, (Z.shiftr_div_pow2 (v / 2) 31) by lia.
    rewrite (Z.div_small (v / 2) (2 ^ 31)) by lia. rewrite Z.lxor_0_r. lia.
  - split; [lia|]. split; [split; [lia|discriminate]|].
    rewrite Z.shiftl_mul_pow2, (Z.shiftr_div_pow2 (- (v / 2) - 1) 31) by lia.
    assert (Hq : (- (v / 2) - 1) / 2 ^ 31 = -1)
      by (symmetry; apply Z.div_unique with (- (v / 2) - 1 + 2 ^ 31); lia).
    rewrite Hq. change (- 1) with (-1). rewrite Z.lxor_m1_r. unfold Z.lnot. lia.
Qed.

Lemma decode_sint32_range_inverse_witness :
  0 <= 4294967295 < 2 ^ 32 /\
  - 2 ^ 31 <= decode_sint32 4294967295 < 2 ^ 31 /\
  (0 <= decode_sint32 4294967295 <-> Z.even 4294967295 = true) /\
  encode_zigzag32 (decode_sint32 4294967295) = 4294967295.
Proof.
  assert (H : 0 <= 4294967295 < 2 ^ 32) by lia.
  split; [exact H|]. exact (decode_sint32_range_inverse 4294967295 H).
Defined.

(** ** [extract_command] *)

(** X6. What [extract_command] reports: ["TOO_SHORT"] (and an empty
    fragment string) for fewer than 2 bytes, ["EMPTY_HDR"] for exactly the
    2-byte header; a command tuple [(cat, id)] exactly when the payload
    after the header starts [00 cat id]; and the continuation flag exactly
    when there is a payload, bit 7 of the first byte is set and no command
    starts. *)
Theorem extract_command_outcome (data : list Z) :
  let '(label, is_cont, cmd, frag) := extract_command data in
  ((length data < 2)%nat -> label = "TOO_SHORT"%string /\ frag = ""%string) /\
  (length data = 2%nat -> label = "EMPTY_HDR"%string) /\
  (forall cat id, cmd = Some (cat, id) <->
     exists d0 d1 rest, data = d0 :: d1 :: 0 :: cat :: id :: rest) /\
  (is_cont = true <->
     (3 <= length data)%nat /\ Z.land (hd 0 data) 128 <> 0 /\ cmd = None).
Proof.
  destruct data as [|d0 [|d1 [|p0 rest]]].
  - simpl. split; [auto|]. split; [discriminate|]. split.
    + intros c i. split; [discriminate|]. intros (? & ? & ? & H). discriminate.
    + split; [discriminate|]. simpl. lia.
  - simpl. split; [auto|]. split; [discriminate|]. split.
    + intros c i. split; [discriminate|]. intros (? & ? & ? & H). discriminate.
    + split; [discriminate|]. simpl. lia.
  - simpl. split; [lia|]. split; [auto|]. split.
    + intros c i. split; [discriminate|]. intros (? & ? & ? & H). discriminate.
    + split; [discriminate|]. simpl. lia.
  - cbn [extract_command].
    destruct p0 as [|pp|pp]; [destruct rest as [|c [|i rest']]|..];
      destruct (Z.land d0 128 =? 0) eqn:Hb; cbn [negb length hd];
      (split; [lia|]); (split; [lia|]);
      try (split; [intros c0 i0; split; [discriminate|];
                   intros (a & b & r & Heq); inversion Heq; subst; discriminate|]);
      try (split; [intros c0 i0; split;
                   [intros Heq; inversion Heq; subst; eauto 6
                   |intros (a & b & r & Heq); inversion Heq; subst; reflexivity]|]);
      apply Z.eqb_eq in Hb || apply Z.eqb_neq in Hb;
      split; intros H; try discriminate; try (destruct H as (_ & H & _); contradiction);
      try (destruct H as (_ & _ & H); discriminate); try reflexivity;
      try (split; [lia|split; [exact Hb|reflexivity]]).
Qed.

(** X7. For a payload that starts a command, setting bit 7 of the first
    header byte only prefixes the label with ["FRAG>"]: the label is
    ["FRAG>"] followed by the label the same payload gets under any header
    whose first byte has bit 7 clear, and the command tuple is the same. *)
Theorem extract_command_frag_label (b0 b0' s s' cat id : Z) (rest : list Z) :
  Z.land b0 128 <> 0 -> Z.land b0' 128 = 0 ->
  let '(l, c, t, _) := extract_command (b0 :: s :: 0 :: cat :: id :: rest) in
  let '(l', c', t', _) := extract_command (b0' :: s' :: 0 :: cat :: id :: rest) in
  l = ("FRAG>" ++ l')%string /\ t = t' /\ c = false /\ c' = false.
Proof.
  intros Hb Hb'. cbn [extract_command].
  apply Z.eqb_neq in Hb. rewrite Hb, Hb'. cbn [negb].
  repeat split.
Qed.

Lemma extract_command_frag_label_witness :
  Z.land 131 128 <> 0 /\ Z.land 3 128 = 0 /\
  let '(l, c, t, _) := extract_command [131; 7; 0; 2; 17] in
  let '(l', c', t', _) := extract_command [3; 0; 0; 2; 17] in
  l = ("FRAG>" ++ l')%string /\ t = t' /\ c = false /\ c' = false.
Proof.
  assert (H1 : Z.land 131 128 <> 0) by (vm_compute; discriminate).
  assert (H2 : Z.land 3 128 = 0) by reflexivity.
  split; [exact H1|]. split; [exact H2|].
  exact (extract_command_frag_label 131 3 7 0 2 17 [] H1 H2).
Defined.

(** ** [parse_btsnoop] *)

Lemma read_records_fuel (f1 f2 : nat) (rest : list Z) :
  (length rest <= f1)%nat -> (length rest <= f2)%nat ->
  read_records f1 rest = read_records f2 rest.
Proof.
  revert f2 rest. induction f1 as [|f1 IH]; intros f2 rest H1 H2.
  - destruct rest; [|simpl in H1; lia].
    destruct f2; reflexivity.
  - destruct f2 as [|f2].
    + destruct rest; [reflexivity|simpl in H2; lia].
    + cbn [read_records].
      destruct (Nat.ltb (length (firstn 24 rest)) 24) eqn:E24; [reflexivity|].
      apply Nat.ltb_ge in E24. rewrite length_firstn in E24.
      match goal with
      | |- context [if Nat.ltb ?a ?b then _ else _] => destruct (Nat.ltb a b)
      end; [reflexivity|].
      destruct (add_epoch _) as [dt|e]; cbn [exc_bind]; [|reflexivity].
      rewrite (IH f2) by (rewrite length_skipn; lia).
      reflexivity.
Qed.

Lemma packet_ok_att (dt t flags : Z) (data : list Z) (p : packet) :
  att_packet dt t flags data = Some p ->
  ((ptype p = "write"%string /\ (opcode p = 18 \/ opcode p = 82)) \/
   (ptype p = "notification"%string /\ opcode p = 27)) /\
  raw_size p = length (pdata p).
Proof.
  unfold att_packet.
  destruct (length data <? 10)%nat; [discriminate|].
  destruct (negb (byte_at data 0 =? 2)); [discriminate|].
  destruct (negb (le_u16 (slice data 7 9) =? 4)); [discriminate|].
  destruct (byte_at data 9 =? 18) eqn:E18; cbn [orb];
    [|destruct (byte_at data 9 =? 82) eqn:E82; cbn [orb];
      [|destruct (byte_at data 9 =? 27) eqn:E27; [|discriminate]]];
    (destruct (length data <? 12)%nat; [discriminate|]);
    intros H; inversion H; subst; cbn; (split; [|reflexivity]).
  - left. split; [reflexivity|]. left. apply Z.eqb_eq. exact E18.
  - left. split; [reflexivity|]. right. apply Z.eqb_eq. exact E82.
  - right. split; [reflexivity|]. apply Z.eqb_eq. exact E27.
Qed.

Lemma read_records_ok (fuel : nat) (rest : list Z) (ps : list packet) :
  read_records fuel rest = Ret ps ->
  Forall (fun p =>
    ((ptype p = "write"%string /\ (opcode p = 18 \/ opcode p = 82)) \/
     (ptype p = "notification"%string /\ opcode p = 27)) /\
    raw_size p = length (pdata p)) ps.
Proof.
  revert rest ps. induction fuel as [|fuel IH]; intros rest ps H; cbn [read_records] in H.
  - inversion H. constructor.
  - destruct (Nat.ltb (length (firstn 24 rest)) 24); [inversion H; constructor|].
    match type of H with
    | context [if Nat.ltb ?a ?b then _ else _] => destruct (Nat.ltb a b)
    end; [inversion H; constructor|].
    destruct (add_epoch _) as [dt|[]]; cbn [exc_bind] in H; [|discriminate].
    match type of H with
    | context [att_packet ?a ?b ?c ?d] => destruct (att_packet a b c d) as [p|] eqn:Hp
    end.
    + destruct (read_records fuel _) as [ps'|[]] eqn:Hr; cbn [exc_bind] in H;
        [|discriminate].
      inversion H; subst. constructor; [exact (packet_ok_att _ _ _ _ _ Hp)|exact (IH _ _ Hr)].
    + exact (IH _ _ H).
Qed.

Lemma read_records_S (fuel : nat) (rest : list Z) :
  read_records (S fuel) rest =
      let rec_hdr := firstn 24 rest in
      if (length rec_hdr <? 24)%nat then Ret []
      else
        let incl_len := be_uint (slice rec_hdr 4 8) in
        let flags := be_uint (slice rec_hdr 8 12) in
        let ts_us := be_uint (slice rec_hdr 16 24) in
        let data := firstn (Z.to_nat incl_len) (skipn 24 rest) in
        if (length data <? Z.to_nat incl_len)%nat then Ret []
        else
          ts_dt <- add_epoch ts_us ;;
          let rest' := skipn (24 + Z.to_nat incl_len) rest in
          match att_packet ts_dt ts_us flags data with
          | Some p => ps <- read_records fuel rest' ;; Ret (p :: ps)
          | None => read_records fuel rest'
          end.
Proof. reflexivity. Qed.

Lemma firstn_app_exact (l r : list Z) (n : nat) :
  length l = n -> firstn n (l ++ r) = l.
Proof.
  intros <-. rewrite firstn_app, Nat.sub_diag, firstn_O, app_nil_r.
  apply firstn_all.
Qed.

Lemma skipn_app_exact (l r : list Z) (n : nat) :
  length l = n -> skipn n (l ++ r) = r.
Proof.
  intros <-. rewrite skipn_app, Nat.sub_diag, skipn_all. reflexivity.
Qed.

(** X8: every packet [parse_btsnoop] returns is a write (ATT opcode 0x12
    or 0x52) or a notification (ATT opcode 0x1B), and its [raw_size] is
    the length of its [data]. *)
Theorem parse_btsnoop_packets_ok (filepath : string) (contents : list Z)
  (out : list string) (ps : list packet) :
  parse_btsnoop filepath contents = Ret (out, ps) ->
  Forall (fun p =>
    ((ptype p = "write"%string /\ (opcode p = 18 \/ opcode p = 82)) \/
     (ptype p = "notification"%string /\ opcode p = 27)) /\
    raw_size p = length (pdata p)) ps.
Proof.
  unfold parse_btsnoop.
  destruct (length (firstn 16 contents) <? 16)%nat.
  - intros H. inversion H. constructor.
  - destruct (read_records _ _) as [ps'|[]] eqn:Hr; cbn [exc_bind]; [|discriminate].
    intros H. inversion H; subst. exact (read_records_ok _ _ _ Hr).
Qed.

Lemma parse_btsnoop_packets_ok_witness :
  parse_btsnoop "a.log"%string btsnoop_example
    = Ret ([], [mkPacket "notification"%string 63613344736608256
                  63613344736608256 16 27 [170; 187] true 2]) /\
  Forall (fun p =>
    ((ptype p = "write"%string /\ (opcode p = 18 \/ opcode p = 82)) \/
     (ptype p = "notification"%string /\ opcode p = 27)) /\
    raw_size p = length (pdata p))
    [mkPacket "notification"%string 63613344736608256
       63613344736608256 16 27 [170; 187] true 2].
Proof.
  assert (H : parse_btsnoop "a.log"%string btsnoop_example
    = Ret ([], [mkPacket "notification"%string 63613344736608256
                  63613344736608256 16 27 [170; 187] true 2]))
    by (vm_compute; reflexivity).
  split; [exact H|].
  exact (parse_btsnoop_packets_ok _ _ _ _ H).
Defined.

(** X9: when the first record after the file header is complete but its
    timestamp lies outside the range of [datetime], [parse_btsnoop] raises
    [OverflowError], whatever the record holds and whatever follows it. *)
Theorem parse_btsnoop_first_record_overflow (filepath : string)
  (hdr rh rest : list Z) :
  length hdr = 16%nat -> length rh = 24%nat ->
  (Z.to_nat (be_uint (slice rh 4 8)) <= length rest)%nat ->
  ~ (DATETIME_MIN_US <= be_uint (slice rh 16 24) < DATETIME_MAX_US) ->
  parse_btsnoop filepath (hdr ++ rh ++ rest) = Raise OverflowError.
Proof.
  intros Hh Hr Hn Hts. unfold parse_btsnoop.
  rewrite (firstn_app_exact _ _ _ Hh), Hh. rewrite Nat.ltb_irrefl. cbn beta iota.
  rewrite (skipn_app_exact _ _ _ Hh).
  rewrite length_app, length_app, Hh, Hr.
  replace (16 + (24 + length rest))%nat with (S (39 + length rest))
    by (clear; lia).
  rewrite read_records_S. cbn zeta.
  rewrite (firstn_app_exact _ _ _ Hr), Hr. rewrite Nat.ltb_irrefl. cbn beta iota.
  rewrite (skipn_app_exact _ _ _ Hr), length_firstn.
  assert (Hlt : Nat.ltb (Nat.min (Z.to_nat (be_uint (slice rh 4 8))) (length rest))
                  (Z.to_nat (be_uint (slice rh 4 8))) = false).
  { apply Nat.ltb_ge. rewrite Nat.min_l by exact Hn. apply Nat.le_refl. }
  rewrite Hlt.
  unfold add_epoch.
  destruct ((DATETIME_MIN_US <=? be_uint (slice rh 16 24)) &&
            (be_uint (slice rh 16 24) <? DATETIME_MAX_US)) eqn:E.
  - exfalso. apply Hts. apply andb_prop in E as [E1 E2].
    apply Z.leb_le in E1. apply Z.ltb_lt in E2. exact (conj E1 E2).
  - reflexivity.
Qed.

Lemma parse_btsnoop_first_record_overflow_witness :
  parse_btsnoop "a.log"%string
    (repeat 0 16 ++ (repeat 0 16 ++ repeat 255 8) ++ [])
    = Raise OverflowError.
Proof.
  refine (parse_btsnoop_first_record_overflow _ _ _ _ _ _ _ _).
  - reflexivity.
  - reflexivity.
  - vm_compute. constructor.
  - vm_compute. intros [_ H]. discriminate H.
Defined.

(** X10: the packets of a file are read record by record: a complete
    record in range with header [rh] and data [d] placed after the file
    header contributes the packet [att_packet] builds from it, if any, in
    front of the packets of the same file without that record. *)
Theorem parse_btsnoop_record_cons (filepath : string) (hdr rh d rest : list Z)
  (dt : Z) :
  length hdr = 16%nat -> length rh = 24%nat ->
  length d = Z.to_nat (be_uint (slice rh 4 8)) ->
  add_epoch (be_uint (slice rh 16 24)) = Ret dt ->
  parse_btsnoop filepath (hdr ++ rh ++ d ++ rest) =
    (r <- parse_btsnoop filepath (hdr ++ rest) ;;
     Ret (fst r,
          match att_packet dt (be_uint (slice rh 16 24))
                  (be_uint (slice rh 8 12)) d with
          | Some p => [p]
          | None => []
          end ++ snd r)).
Proof.
  intros Hh Hr Hd Ht. unfold parse_btsnoop.
  rewrite !(firstn_app_exact _ _ _ Hh), Hh. rewrite Nat.ltb_irrefl. cbn beta iota.
  rewrite !(skipn_app_exact _ _ _ Hh).
  rewrite !length_app, Hh, Hr.
  rewrite (read_records_fuel (16 + length rest) (length rest) rest) by (clear; lia).
  replace (16 + (24 + (length d + length rest)))%nat
    with (S (39 + (length d + length rest))) by (clear; lia).
  rewrite read_records_S. cbn zeta.
  rewrite (firstn_app_exact _ _ _ Hr), Hr. rewrite Nat.ltb_irrefl. cbn beta iota.
  rewrite (skipn_app_exact _ _ _ Hr), <- Hd, (firstn_app_exact _ _ _ eq_refl).
  rewrite Nat.ltb_irrefl, Ht. cbn [exc_bind].
  replace (24 + length d)%nat with (length (rh ++ d))
    by (rewrite length_app, Hr; reflexivity).
  rewrite app_assoc, (skipn_app_exact _ _ _ eq_refl).
  rewrite (read_records_fuel (39 + (length d + length rest)) (length rest) rest)
    by (clear; lia).
  destruct (att_packet _ _ _ _);
    destruct (read_records (length rest) rest); reflexivity.
Qed.

Lemma parse_btsnoop_record_cons_witness :
  parse_btsnoop "a.log"%string
    (firstn 16 btsnoop_example ++ firstn 24 (skipn 16 btsnoop_example) ++
     skipn 40 btsnoop_example ++ skipn 16 btsnoop_example) =
    (r <- parse_btsnoop "a.log"%string
            (firstn 16 btsnoop_example ++ skipn 16 btsnoop_example) ;;
     Ret (fst r,
          match att_packet 63613344736608256
                  (be_uint (slice (firstn 24 (skipn 16 btsnoop_example)) 16 24))
                  (be_uint (slice (firstn 24 (skipn 16 btsnoop_example)) 8 12))
                  (skipn 40 btsnoop_example) with
          | Some p => [p]
          | None => []
          end ++ snd r)).
Proof.
  refine (parse_btsnoop_record_cons _ _ _ _ _ _ _ _ _ _);
    vm_compute; reflexivity.
Defined.

(** ** [semicircles_to_degrees] and [float(int)] *)

(** [binary_round_aux] past the largest exponent gives infinity. *)
Lemma round_aux_over (sx : bool) (q e : Z) (l : location) :
  2 ^ 52 <= q -> -1074 <= e -> 971 < e + (Z.log2 q - 52) ->
  binary_round_aux Py.prec Py.emax sx q e l = S754_infinity sx.
Proof.
  intros Hq He Hmax.
  assert (HL : 52 <= Z.log2 q) by (apply Z.log2_le_pow2; lia).
  set (k := Z.log2 q - 52) in *.
  assert (Hk0 : 0 <= k) by (unfold k; lia).
  destruct (Z.log2_spec q ltac:(lia)) as [Hlo _].
  assert (HP : 2 ^ Z.log2 q = 2 ^ 52 * 2 ^ k)
    by (rewrite <- Z.pow_add_r by lia; f_equal; unfold k; lia).
  assert (Hpk : 0 < 2 ^ k) by (apply Z.pow_pos_nonneg; lia).
  destruct (shr_fexp_wide q e l Hq He) as [Hm1 [He1 _]]. fold k in Hm1, He1.
  unfold binary_round_aux.
  destruct (shr_fexp Py.prec Py.emax q e l) as [mrs' e'] eqn:H1.
  cbn [fst snd] in Hm1, He1.
  rewrite Z.shiftr_div_pow2 in Hm1 by lia.
  assert (Hm1lo : 2 ^ 52 <= shr_m mrs').
  { rewrite Hm1. apply Z.div_le_lower_bound; lia. }
  set (M0 := round_nearest_even (shr_m mrs') (loc_of_shr_record mrs')).
  assert (HM0 : M0 = shr_m mrs' \/ M0 = shr_m mrs' + 1)
    by apply round_nearest_even_cases.
  assert (HM0lo : 2 ^ 52 <= M0) by lia.
  clearbody M0.
  destruct (shr_fexp_wide M0 e' loc_Exact HM0lo ltac:(lia)) as [Hm2 [He2 _]].
  destruct (shr_fexp Py.prec Py.emax M0 e' loc_Exact) as [mrs'' e''] eqn:H2.
  cbn [fst snd] in Hm2, He2.
  assert (HL0 : 52 <= Z.log2 M0) by (apply Z.log2_le_pow2; lia).
  destruct (Z.log2_spec M0 ltac:(lia)) as [Hlo0 _].
  assert (HP0 : 2 ^ Z.log2 M0 = 2 ^ 52 * 2 ^ (Z.log2 M0 - 52))
    by (rewrite <- Z.pow_add_r by lia; f_equal; lia).
  assert (Hpk0 : 0 < 2 ^ (Z.log2 M0 - 52)) by (apply Z.pow_pos_nonneg; lia).
  rewrite Z.shiftr_div_pow2 in Hm2 by lia.
  assert (Hm2lo : 2 ^ 52 <= shr_m mrs'').
  { rewrite Hm2. apply Z.div_le_lower_bound; lia. }
  destruct (shr_m mrs'') as [|m|m]; try lia.
  replace (e'' <=? Py.emax - Py.prec) with false
    by (symmetry; apply Z.leb_gt; unfold Py.emax, Py.prec; lia).
  reflexivity.
Qed.

(** [float(n)] is finite for [|n| < 2^1023] and overflows for
    [|n| >= 2^1024]. *)
Lemma float_of_int_below (d : Z) :
  - 2 ^ 1023 < d < 2 ^ 1023 -> exists f, Py.float_of_int d = Ret f.
Proof.
  intros Hd. unfold Py.float_of_int.
  destruct d as [|p|p]; [eexists; reflexivity| |];
  [ rewrite (float_of_int_finite false p)
  | rewrite (float_of_int_finite true p) ];
  (assert (Hp : 0 < Zpos p < 2 ^ 1023) by lia);
  clear Hd;
  (assert (HL0 : 0 <= Z.log2 (Zpos p)) by apply Z.log2_nonneg);
  (destruct (Z.log2_spec (Zpos p) ltac:(lia)) as [Hlo Hhi]);
  (assert (HL : Z.log2 (Zpos p) < 1023) by (apply Z.log2_lt_pow2; lia));
  unfold binary_round; rewrite digits2_pos_log2, Z.add_0_r;
  (assert (Hf : fexp Py.prec Py.emax (Z.log2 (Zpos p) + 1) = Z.log2 (Zpos p) - 52)
    by (unfold fexp, emin, Py.prec, Py.emax; lia));
  rewrite Hf; unfold shl_align;
  destruct (Z.log2 (Zpos p) - 52 - 0) as [|dp|dn] eqn:Hd.
  all: try (assert (H52 : 2 ^ 52 <= Zpos p)
              by (eapply Z.le_trans; [|exact Hlo]; apply Z.pow_le_mono_r; lia);
            match goal with
            | |- exists f, match binary_round_aux _ _ ?sx _ _ _ with _ => _ end = _ =>
                destruct (round_aux_wide sx (Zpos p) 0 loc_Exact H52 ltac:(lia)
                            ltac:(lia)) as [M [E [Hr _]]]
            end;
            rewrite Hr; eexists; reflexivity).
  all: set (q := Zpos (Pos.iter xO p dn));
    (assert (Hq : q = Zpos p * 2 ^ (52 - Z.log2 (Zpos p)))
       by (unfold q; rewrite iter_xO_mul; f_equal; f_equal; lia));
    (assert (HP : 2 ^ (52 - Z.log2 (Zpos p)) * 2 ^ Z.log2 (Zpos p) = 2 ^ 52)
       by (rewrite <- Z.pow_add_r by lia; f_equal; lia));
    (assert (HP' : 2 ^ (52 - Z.log2 (Zpos p)) * 2 ^ Z.succ (Z.log2 (Zpos p)) = 2 ^ 53)
       by (rewrite <- Z.pow_add_r by lia; f_equal; lia));
    (assert (Hqb : 2 ^ 52 <= q < 2 ^ 53) by nia);
    (assert (HLq : Z.log2 q = 52) by (apply log2_between; lia));
    match goal with
    | |- exists f, match binary_round_aux _ _ ?sx _ _ _ with _ => _ end = _ =>
        destruct (round_aux_wide sx q (Z.log2 (Zpos p) - 52) loc_Exact ltac:(lia)
                    ltac:(lia) ltac:(rewrite HLq; lia)) as [M [E [Hr _]]]
    end;
    fold q; rewrite Hr; eexists; reflexivity.
Qed.

Lemma float_of_int_above (d : Z) :
  2 ^ 1024 <= Z.abs d -> Py.float_of_int d = Raise OverflowError.
Proof.
  intros Hd. unfold Py.float_of_int.
  destruct d as [|p|p]; [simpl in Hd; lia| |];
  [ rewrite (float_of_int_finite false p)
  | rewrite (float_of_int_finite true p) ];
  (assert (Hp : 2 ^ 1024 <= Zpos p) by (simpl in Hd; lia));
  clear Hd;
  (assert (HL : 1024 <= Z.log2 (Zpos p)) by (apply Z.log2_le_pow2; lia));
  (assert (H52 : 2 ^ 52 <= Zpos p)
     by (eapply Z.le_trans; [|exact Hp]; apply Z.pow_le_mono_r; lia));
  unfold binary_round; rewrite digits2_pos_log2, Z.add_0_r;
  (assert (Hf : fexp Py.prec Py.emax (Z.log2 (Zpos p) + 1) = Z.log2 (Zpos p) - 52)
    by (unfold fexp, emin, Py.prec, Py.emax; lia));
  rewrite Hf; unfold shl_align;
  (destruct (Z.log2 (Zpos p) - 52 - 0) as [|dp|dn] eqn:Hd; [lia| |lia]);
  rewrite round_aux_over by lia; reflexivity.
Qed.

(** X11. [semicircles_to_degrees(sc)] returns a float for every
    [|sc| < 2^1023] and raises [OverflowError] for every [|sc| >= 2^1024]:
    the [int] operand of the product does not fit a float. *)
Theorem semicircles_to_degrees_overflow (sc : Z) :
  (Z.abs sc < 2 ^ 1023 -> exists f, semicircles_to_degrees sc = Ret f) /\
  (2 ^ 1024 <= Z.abs sc -> semicircles_to_degrees sc = Raise OverflowError).
Proof.
  unfold semicircles_to_degrees. split.
  - intros Hs. destruct (float_of_int_below sc ltac:(lia)) as [f Hf].
    rewrite Hf. eexists. reflexivity.
  - intros Hs. rewrite (float_of_int_above sc Hs). reflexivity.
Qed.

(** ** [parse_ble_notification] never raises on short payloads *)

Lemma decode_varint_range (data : list Z) (offset : nat) :
  0 <= fst (decode_varint data offset) < 2 ^ (7 * snd (decode_varint data offset)) /\
  0 <= snd (decode_varint data offset) <= Z.of_nat (length data - offset).
Proof.
  unfold decode_varint.
  destruct (decode_varint_loop_bound (skipn offset data) 0 0 0 ltac:(lia) ltac:(simpl; lia))
    as [H1 [H2 _]].
  rewrite length_skipn in H2.
  rewrite Z.add_0_l, Z.sub_0_r in H1. rewrite Z.add_0_l in H2.
  split; [exact H1|exact H2].
Qed.

Lemma decode_sint32_abs_le (v : Z) : 0 <= v -> Z.abs (decode_sint32 v) <= v.
Proof.
  intros Hv. rewrite (decode_sint32_cases v Hv).
  pose proof (Z.div_mod v 2 ltac:(lia)) as Hd.
  pose proof (Z.mod_pos_bound v 2 ltac:(lia)) as Hm.
  rewrite (Zmod_even v) in Hd, Hm.
  destruct (Z.even v); lia.
Qed.

Lemma sint_of_varint_small (data : list Z) (offset : nat) :
  snd (decode_varint data offset) <= 146 ->
  Z.abs (decode_sint32 (fst (decode_varint data offset))) < 2 ^ 1023.
Proof.
  intros Hn. destruct (decode_varint_range data offset) as [[Hv0 Hv] [Hn0 _]].
  pose proof (decode_sint32_abs_le _ Hv0) as Ha.
  assert (Hp : 2 ^ (7 * snd (decode_varint data offset)) <= 2 ^ 1022)
    by (apply Z.pow_le_mono_r; lia).
  assert (Hq : 2 ^ 1022 < 2 ^ 1023) by (apply Z.pow_lt_mono_r; lia).
  lia.
Qed.

Lemma converts_short (data : list Z) (j : nat) :
  (length data <= 150)%nat -> converts data j.
Proof.
  intros Hlen Hs. unfold structurally_valid in Hs.
  apply andb_prop in Hs as [Hs _]. apply andb_prop in Hs as [_ Hs].
  apply Z.ltb_lt in Hs.
  unfold block_degrees, lon_varint. unfold lon_offset_at, lat_varint in *.
  destruct (decode_varint_range data (j + 3)) as [_ [Hn1 _]].
  set (n1 := snd (decode_varint data (j + 3))) in *.
  destruct (decode_varint_range data (Z.to_nat (Z.of_nat j + 3 + n1) + 1))
    as [_ [Hn2 Hn2']].
  rewrite Nat2Z.inj_sub, Nat2Z.inj_add, Z2Nat.id in Hn2' by lia.
  destruct (float_of_int_below (decode_sint32 (fst (decode_varint data (j + 3)))))
    as [a Ha].
  { pose proof (sint_of_varint_small data (j + 3) ltac:(unfold n1 in Hs; lia)). lia. }
  destruct (float_of_int_below
              (decode_sint32 (fst (decode_varint data
                 (Z.to_nat (Z.of_nat j + 3 + n1) + 1))))) as [b Hb].
  { pose proof (sint_of_varint_small data (Z.to_nat (Z.of_nat j + 3 + n1) + 1)
                  ltac:(lia)). lia. }
  unfold semicircles_to_degrees. rewrite Ha, Hb. cbn [exc_bind]. discriminate.
Qed.

Lemma coord_scan_no_raise (data : list Z) (js : list nat) :
  (forall j, In j js -> coord_candidate data j <> Raise OverflowError) ->
  exists r, coord_scan data js = Ret r.
Proof.
  induction js as [|j js IH]; intros H; cbn [coord_scan].
  - eexists. reflexivity.
  - specialize (H j (or_introl eq_refl)) as Hj.
    destruct (coord_candidate data j) as [[p|]|[]]; cbn [exc_bind].
    + eexists. reflexivity.
    + apply IH. intros k Hk. apply H. right. exact Hk.
    + congruence.
Qed.

(** X12. [parse_ble_notification] never raises on a payload of at most
    150 bytes: both varints of a candidate block then hold fewer than
    [7 * 146] bits, so the coordinates always convert to float. *)
Theorem parse_ble_notification_short_no_raise (data : list Z) :
  (length data <= 150)%nat -> exists r, parse_ble_notification data = Ret r.
Proof.
  intros Hlen. unfold parse_ble_notification.
  destruct (Z.of_nat (length data) <? 40); [eexists; reflexivity|].
  destruct (negb (is_collar data)); [eexists; reflexivity|].
  apply coord_scan_no_raise. intros j _.
  apply coord_candidate_no_raise, converts_short, Hlen.
Qed.

Lemma parse_ble_notification_short_no_raise_witness :
  (length long_payload <= 150)%nat /\
  exists r, parse_ble_notification long_payload = Ret r.
Proof.
  assert (H : (length long_payload <= 150)%nat) by (vm_compute; lia).
  split; [exact H|]. exact (parse_ble_notification_short_no_raise long_payload H).
Defined.

Lemma coord_scan_some (data : list Z) (js : list nat) (p : DogPosition) :
  coord_scan data js = Ret (Some p) ->
  exists j, In j js /\ coord_candidate data j = Ret (Some p).
Proof.
  induction js as [|j js IH]; cbn [coord_scan]; [discriminate|].
  destruct (coord_candidate data j) as [[q|]|[]] eqn:Hc; cbn [exc_bind].
  - intros H. inversion H; subst. exists j. split; [left; reflexivity|exact Hc].
  - intros H. destruct (IH H) as [k [Hk Hk']]. exists k. split; [right; exact Hk|exact Hk'].
  - discriminate.
Qed.

(** X13. A position returned by [parse_ble_notification] passed the range
    check ([in_range] holds of its latitude and longitude), has a
    nonnegative timestamp, and leaves altitude, speed and heading at their
    default [None]. *)
Theorem parse_ble_notification_result (data : list Z) (p : DogPosition) :
  parse_ble_notification data = Ret (Some p) ->
  in_range (lat p) (lon p) = true /\ 0 <= timestamp p /\
  altitude p = None /\ speed p = None /\ heading p = None.
Proof.
  unfold parse_ble_notification.
  destruct (Z.of_nat (length data) <? 40); [discriminate|].
  destruct (negb (is_collar data)); [discriminate|].
  intros H. destruct (coord_scan_some _ _ _ H) as [j [_ Hj]].
  rewrite coord_candidate_eq in Hj.
  destruct (structurally_valid data j); [|discriminate].
  destruct (block_degrees data j) as [[a b]|]; [|discriminate].
  destruct (in_range a b) eqn:Hr; [|discriminate].
  inversion Hj; subst. cbn.
  split; [exact Hr|]. split; [|auto].
  unfold block_timestamp.
  destruct (_ && _); [|lia].
  apply decode_varint_range.
Qed.

Lemma parse_ble_notification_result_witness :
  exists p, parse_ble_notification position_payload = Ret (Some p) /\
  in_range (lat p) (lon p) = true /\ 0 <= timestamp p /\
  altitude p = None /\ speed p = None /\ heading p = None.
Proof.
  destruct (parse_ble_notification position_payload) as [[p|]|e] eqn:H;
    vm_compute in H; try discriminate.
  exists p. split; [reflexivity|].
  exact (parse_ble_notification_result position_payload p H).
Defined.

(** ** [generate_cot_xml] and [handle_notification] *)

Lemma replace_second_30 (now : datetime) :
  valid_second now ->
  (datetime_replace_second now (dt_second now + 30) = Err PyValueError <->
   30 <= dt_second now) /\
  (dt_second now < 30 ->
   exists st, datetime_replace_second now (dt_second now + 30) = Ok st).
Proof.
  unfold valid_second, datetime_replace_second. intros Hs.
  destruct ((0 <=? dt_second now + 30) && (dt_second now + 30 <=? 59)) eqn:E.
  - apply andb_prop in E as [_ E]. apply Z.leb_le in E.
    split; [split; [discriminate|lia]|]. intros _. eexists. reflexivity.
  - split; [split; [intros _|reflexivity]|].
    + destruct (Z.lt_ge_cases (dt_second now) 30) as [Hlt|Hge]; [|exact Hge].
      exfalso. rewrite (proj2 (Z.leb_le 0 _)), (proj2 (Z.leb_le _ 59)) in E by lia.
      discriminate.
    + intros Hlt. exfalso. rewrite (proj2 (Z.leb_le 0 _)), (proj2 (Z.leb_le _ 59)) in E by lia.
      discriminate.
Qed.

(** X14. For a clock reading [now] (with [0 <= second <= 59]),
    [generate_cot_xml] raises [ValueError] exactly when the second is at
    least 30, since the stale time is built with
    [now.replace(second=now.second + 30)]; otherwise it returns the XML.
    The XML depends on the position only through its latitude and
    longitude: the collar's timestamp is never used. *)
Theorem generate_cot_xml_stale (strftime_iso : datetime -> string)
  (fmt_7f : Py.float -> string) (position : DogPosition) (callsign uid : string)
  (now : datetime) :
  valid_second now ->
  (generate_cot_xml strftime_iso fmt_7f position callsign uid now = Err PyValueError <->
   30 <= dt_second now) /\
  (dt_second now < 30 ->
   exists xml, generate_cot_xml strftime_iso fmt_7f position callsign uid now = Ok xml) /\
  (forall position', lat position' = lat position -> lon position' = lon position ->
   generate_cot_xml strftime_iso fmt_7f position' callsign uid now
   = generate_cot_xml strftime_iso fmt_7f position callsign uid now).
Proof.
  intros Hs. destruct (replace_second_30 now Hs) as [Hiff Hok].
  unfold generate_cot_xml.
  split; [|split].
  - rewrite <- Hiff.
    destruct (datetime_replace_second now (dt_second now + 30)); split; congruence.
  - intros Hlt. destruct (Hok Hlt) as [st Hst]. rewrite Hst. eexists. reflexivity.
  - intros p' Hlat Hlon. rewrite Hlat, Hlon. reflexivity.
Qed.


Lemma generate_cot_xml_stale_witness :
  valid_second clock_example /\
  generate_cot_xml (fun _ => "2025-06-01T12:00:45.000Z"%string) (fun _ => "0.0000000"%string)
    (mkDogPosition (Py.lit 0) (Py.lit 0) 0 None None None) DOG_CALLSIGN DOG_UID
    clock_example = Err PyValueError.
Proof.
  assert (H : valid_second clock_example) by (unfold valid_second; simpl; lia).
  split; [exact H|].
  apply (proj1 (generate_cot_xml_stale (fun _ => "2025-06-01T12:00:45.000Z"%string)
                  (fun _ => "0.0000000"%string)
                  (mkDogPosition (Py.lit 0) (Py.lit 0) 0 None None None)
                  DOG_CALLSIGN DOG_UID clock_example H)).
  simpl. lia.
Defined.

(** X15. [handle_notification] leaves the connection alone; when the
    payload parses to a position it increments [position_count] and
    stores the position in [last_position], and these updates stay even
    when an exception escapes afterwards; otherwise (no position, or
    [OverflowError] from the parser) the bridge is unchanged. *)
Theorem handle_notification_state (strftime_iso : datetime -> string)
  (fmt_7f : Py.float -> string) (b : bridge) (data : list Z) (now : datetime)
  (send_ok : bool) :
  let '(b', _) := handle_notification strftime_iso fmt_7f b data now send_ok in
  tak_connected b' = tak_connected b /\
  match parse_ble_notification data with
  | Ret (Some p) => position_count b' = position_count b + 1 /\ last_position b' = Some p
  | _ => b' = b
  end.
Proof.
  unfold handle_notification.
  destruct (parse_ble_notification data) as [[p|]|e]; [|split; reflexivity|split; reflexivity].
  destruct (generate_cot_xml strftime_iso fmt_7f p DOG_CALLSIGN DOG_UID now) as [cot|e];
    [|split; [reflexivity|split; reflexivity]].
  unfold send_cot. cbn [tak_connected].
  destruct (tak_connected b) eqn:Hc; [destruct send_ok|]; cbn;
    (split; [auto|split; reflexivity]).
Qed.

(** X16. The exceptions that escape [handle_notification] are the
    parser's [OverflowError] and, when a position was parsed at a clock
    second of 30 or more, [generate_cot_xml]'s [ValueError]; a failing
    [send] never escapes. *)
Theorem handle_notification_exceptions (strftime_iso : datetime -> string)
  (fmt_7f : Py.float -> string) (b : bridge) (data : list Z) (now : datetime)
  (send_ok : bool) :
  valid_second now ->
  let r := snd (handle_notification strftime_iso fmt_7f b data now send_ok) in
  (r = Some PyOverflowError <-> parse_ble_notification data = Raise OverflowError) /\
  (r = Some PyValueError <->
   (exists p, parse_ble_notification data = Ret (Some p)) /\ 30 <= dt_second now) /\
  r <> Some PyOSError.
Proof.
  intros Hs r. subst r. unfold handle_notification.
  destruct (parse_ble_notification data) as [[p|]|[]]; cbn [snd of_exn].
  - destruct (generate_cot_xml_stale strftime_iso fmt_7f p DOG_CALLSIGN DOG_UID now Hs)
      as [Hiff [Hok _]].
    destruct (generate_cot_xml strftime_iso fmt_7f p DOG_CALLSIGN DOG_UID now)
      as [cot|e] eqn:Hg.
    + assert (Hlt : dt_second now < 30).
      { destruct (Z.lt_ge_cases (dt_second now) 30) as [|Hge]; [assumption|].
        apply Hiff in Hge. discriminate. }
      destruct (send_cot _ cot send_ok); cbn [snd].
      all: split; [split; discriminate|split; [split; [discriminate|lia]|discriminate]].
    + assert (He : e = PyValueError).
      { destruct (Z.lt_ge_cases (dt_second now) 30) as [Hlt|Hge].
        - destruct (Hok Hlt) as [xml Hx]. discriminate.
        - apply Hiff in Hge. congruence. }
      subst e. cbn [snd].
      split; [split; discriminate|].
      split; [|discriminate].
      split.
      * intros _. split; [exists p; reflexivity|]. apply Hiff; reflexivity.
      * reflexivity.
  - split; [split; discriminate|].
    split; [|discriminate]. split; [discriminate|].
    intros [[p Hp] _]. discriminate.
  - split; [split; reflexivity|].
    split; [|discriminate]. split; [discriminate|].
    intros [[p Hp] _]. discriminate.
Qed.

Lemma handle_notification_exceptions_witness :
  valid_second clock_example /\
  snd (handle_notification (fun _ => ""%string) (fun _ => ""%string)
         (mkBridge true [] None 0) position_payload clock_example true)
  = Some PyValueError.
Proof.
  assert (H : valid_second clock_example) by (unfold valid_second; simpl; lia).
  split; [exact H|].
  apply (proj1 (proj2 (handle_notification_exceptions (fun _ => ""%string)
                         (fun _ => ""%string) (mkBridge true [] None 0)
                         position_payload clock_example true H))).
  split; [|simpl; lia].
  destruct (parse_ble_notification position_payload) as [[p|]|e] eqn:Hp;
    vm_compute in Hp; try discriminate.
  exists p. reflexivity.
Defined.

(** X17. [handle_notification] sends at most one message: the CoT XML of
    the parsed position, and only when a position was parsed, the XML was
    generated, the connection is set and the send succeeds; in every other
    case nothing is sent. *)
Theorem handle_notification_sent (strftime_iso : datetime -> string)
  (fmt_7f : Py.float -> string) (b : bridge) (data : list Z) (now : datetime)
  (send_ok : bool) :
  tak_sent (fst (handle_notification strftime_iso fmt_7f b data now send_ok)) =
  tak_sent b ++
  match parse_ble_notification data with
  | Ret (Some p) =>
      match generate_cot_xml strftime_iso fmt_7f p DOG_CALLSIGN DOG_UID now with
      | Ok xml => if tak_connected b && send_ok then [xml] else []
      | Err _ => []
      end
  | _ => []
  end.
Proof.
  unfold handle_notification.
  destruct (parse_ble_notification data) as [[p|]|e]; cbn [fst];
    [|symmetry; apply app_nil_r|symmetry; apply app_nil_r].
  destruct (generate_cot_xml strftime_iso fmt_7f p DOG_CALLSIGN DOG_UID now) as [cot|e];
    [|symmetry; apply app_nil_r].
  unfold send_cot. cbn [tak_connected tak_sent].
  destruct (tak_connected b); destruct send_ok; cbn; try reflexivity;
    symmetry; apply app_nil_r.
Qed.

(** ** [format_hex] *)

Lemma str_length_append (s t : string) :
  String.length (s ++ t) = (String.length s + String.length t)%nat.
Proof. induction s as [|c s IH]; [reflexivity|]. cbn. rewrite IH. reflexivity. Qed.

Lemma str_append_nil (s : string) : (s ++ "")%string = s.
Proof. induction s as [|c s IH]; [reflexivity|]. cbn. rewrite IH. reflexivity. Qed.

Lemma bytes_hex_cons (b : Z) (bs : list Z) :
  bytes_hex (b :: bs) = (byte_hex b ++ bytes_hex bs)%string.
Proof.
  unfold bytes_hex. destruct bs as [|b' bs]; cbn [map String.concat].
  - unfold byte_hex. reflexivity.
  - reflexivity.
Qed.

Lemma substring_byte_hex_0 (b : Z) (s : string) :
  substring 0 2 (byte_hex b ++ s) = byte_hex b.
Proof. unfold byte_hex. cbn. destruct s; reflexivity. Qed.

Lemma substring_byte_hex_S (b : Z) (s : string) (n m : nat) :
  substring (S (S n)) m (byte_hex b ++ s) = substring n m s.
Proof. reflexivity. Qed.

Lemma length_bytes_hex (bs : list Z) : String.length (bytes_hex bs) = (2 * length bs)%nat.
Proof.
  induction bs as [|b bs IH]; [reflexivity|].
  rewrite bytes_hex_cons, str_length_append, IH. cbn [length]. unfold byte_hex. cbn. lia.
Qed.

Lemma hex_pairs_bytes_hex (bs : list Z) : hex_pairs (bytes_hex bs) = map byte_hex bs.
Proof.
  unfold hex_pairs. rewrite length_bytes_hex.
  replace ((2 * length bs + 1) / 2)%nat with (length bs)
    by (replace (2 * length bs + 1)%nat with (1 + length bs * 2)%nat by lia;
        rewrite Nat.div_add by lia; reflexivity).
  induction bs as [|b bs IH]; [reflexivity|].
  cbn [length]. rewrite <- cons_seq, <- seq_shift. cbn [map]. rewrite map_map.
  rewrite bytes_hex_cons, substring_byte_hex_0. f_equal.
  rewrite <- IH. apply map_ext. intros i.
  replace (2 * S i)%nat with (S (S (2 * i))) by lia.
  apply substring_byte_hex_S.
Qed.

(** X18. [format_hex(data, max_bytes)] shows each byte of
    [data[:max_bytes]] as its own two-digit group, the groups separated by
    single spaces, followed by [" ... (+N bytes)"] with [N] the number of
    bytes left out exactly when [len(data) > max_bytes]. *)
Theorem format_hex_groups (data : list Z) (max_bytes : Z) :
  format_hex data max_bytes =
  (String.concat " " (map byte_hex (py_prefix data max_bytes)) ++
   if (max_bytes <? Z.of_nat (length data))%Z then
     " ... (+" ++ py_str_Z (Z.of_nat (length data) - max_bytes) ++ " bytes)"
   else "")%string.
Proof.
  unfold format_hex. rewrite hex_pairs_bytes_hex.
  destruct (max_bytes <? Z.of_nat (length data)); [reflexivity|].
  symmetry. apply str_append_nil.
Qed.

(** ** [analyze_notifications_in_window] *)


Lemma sdict_get_none {V : Type} (d : list (string * V)) (k : string) :
  sdict_get d k = None <-> ~ In k (map fst d).
Proof.
  induction d as [|[k' v] d IH]; cbn [sdict_get map fst In]; [tauto|].
  destruct (String.eqb k' k) eqn:E.
  - apply String.eqb_eq in E. subst. split; [discriminate|]. intros H. exfalso. auto.
  - apply String.eqb_neq in E. rewrite IH. split; [|tauto]. intros H [H'|H']; auto.
Qed.

Lemma sdict_set_keys_in {V : Type} (d : list (string * V)) (k : string) (v : V) :
  In k (map fst d) -> map fst (sdict_set d k v) = map fst d.
Proof.
  induction d as [|[k' v'] d IH]; cbn [sdict_set map fst In]; [tauto|].
  destruct (String.eqb k' k) eqn:E; [reflexivity|].
  apply String.eqb_neq in E. intros [H|H]; [congruence|]. cbn. rewrite IH; auto.
Qed.

Lemma sdict_set_keys_notin {V : Type} (d : list (string * V)) (k : string) (v : V) :
  ~ In k (map fst d) -> map fst (sdict_set d k v) = map fst d ++ [k].
Proof.
  induction d as [|[k' v'] d IH]; cbn [sdict_set map fst In]; [reflexivity|].
  intros H. destruct (String.eqb k' k) eqn:E.
  - apply String.eqb_eq in E. exfalso. auto.
  - cbn. rewrite IH; auto.
Qed.

Lemma sdict_set_incr_sum (d : list (string * Z)) (k : string) :
  sum_counts (sdict_set d k (match sdict_get d k with Some n => n | None => 0 end + 1))
  = sum_counts d + 1.
Proof.
  unfold sum_counts.
  induction d as [|[k' v'] d IH]; cbn [sdict_set sdict_get map fst snd fold_right]; [lia|].
  destruct (String.eqb k' k); cbn [map fst snd fold_right]; lia.
Qed.

Lemma sdict_set_incr_pos (d : list (string * Z)) (k : string) :
  Forall (fun kv => 1 <= snd kv) d ->
  Forall (fun kv => 1 <= snd kv)
    (sdict_set d k (match sdict_get d k with Some n => n | None => 0 end + 1)).
Proof.
  induction d as [|[k' v'] d IH]; cbn [sdict_set sdict_get]; intros H.
  - constructor; [cbn; lia|constructor].
  - inversion H as [|? ? Hv Hd]; subst. cbn [snd] in Hv.
    destruct (String.eqb k' k); constructor; cbn [snd]; auto; lia.
Qed.

Lemma sdict_mem_in {V : Type} (d : list (string * V)) (k : string) :
  sdict_mem d k = true <-> In k (map fst d).
Proof.
  unfold sdict_mem. pose proof (sdict_get_none d k) as H.
  destruct (sdict_get d k); split; try tauto; try discriminate.
  - intros _. destruct (in_dec String.string_dec k (map fst d)) as [Hi|Hi]; [exact Hi|].
    apply H in Hi. discriminate.
Qed.

Lemma NoDup_app_single (l : list string) (k : string) :
  NoDup l -> ~ In k l -> NoDup (l ++ [k]).
Proof.
  intros H Hk. apply NoDup_app; [exact H|constructor; [intros []|constructor]|].
  intros x Hx [<-|[]]. exact (Hk Hx).
Qed.

Lemma analyze_loop_inv (notifs : list packet) (t0 : Z) (w : Py.float) :
  forall counts first total frag dc counts' first' total' frag' dc',
  map fst first = map fst counts -> NoDup (map fst counts) ->
  Forall (fun kv => 1 <= snd kv) counts ->
  total = frag + dc + sum_counts counts -> 0 <= frag -> 0 <= dc ->
  analyze_loop notifs t0 w counts first total frag dc
    = Ret (counts', first', total', frag', dc') ->
  map fst first' = map fst counts' /\ NoDup (map fst counts') /\
  Forall (fun kv => 1 <= snd kv) counts' /\
  total' = frag' + dc' + sum_counts counts' /\ 0 <= frag' /\ 0 <= dc' /\
  total <= total' <= total + Z.of_nat (length notifs).
Proof.
  induction notifs as [|pkt rest IH];
    intros counts first total frag dc counts' first' total' frag' dc'
      Hk Hnd Hpos Hsum Hf Hd H; cbn [analyze_loop] in H.
  - inversion H; subst. cbn [length]. repeat split; auto; lia.
  - destruct (offset_seconds (ts_us pkt) t0) as [offset|e]; cbn [exc_bind] in H;
      [|discriminate].
    destruct (Py.flt w offset).
    + inversion H; subst. cbn [length]. repeat split; auto; lia.
    + destruct (extract_command (pdata pkt)) as [[[label is_cont] cmd] frag_info].
      cbn [length]. rewrite Nat2Z.inj_succ.
      destruct is_cont.
      * destruct (IH counts first (total + 1) (frag + 1) dc counts' first' total' frag' dc'
                    Hk Hnd Hpos ltac:(lia) ltac:(lia) Hd H)
          as [H1 [H2 [H3 [H4 [H5 [H6 H7]]]]]].
        repeat split; auto; lia.
      * destruct cmd as [[c0 c1]|].
        -- set (key := cmd_key c0 c1) in H.
           set (counts1 := sdict_set counts key _) in H.
           set (first1 := if sdict_mem first key then first else _) in H.
           assert (Hk1 : map fst first1 = map fst counts1 /\ NoDup (map fst counts1)).
           { unfold first1, counts1.
             destruct (in_dec String.string_dec key (map fst counts)) as [Hi|Hi].
             - rewrite (proj2 (sdict_mem_in first key)) by (rewrite Hk; exact Hi).
               rewrite sdict_set_keys_in by exact Hi. auto.
             - replace (sdict_mem first key) with false.
               2:{ symmetry. apply Bool.not_true_iff_false. rewrite sdict_mem_in, Hk.
                   exact Hi. }
               rewrite !sdict_set_keys_notin by (try rewrite Hk; exact Hi).
               rewrite Hk. split; [reflexivity|]. apply NoDup_app_single; assumption. }
           destruct Hk1 as [Hk1 Hnd1].
           destruct (IH counts1 first1 (total + 1) frag dc counts' first' total' frag' dc'
                       Hk1 Hnd1 (sdict_set_incr_pos counts key Hpos)
                       ltac:(unfold counts1; rewrite sdict_set_incr_sum; lia) Hf Hd H)
             as [H1 [H2 [H3 [H4 [H5 [H6 H7]]]]]].
           repeat split; auto; lia.
        -- destruct (IH counts first (total + 1) frag (dc + 1) counts' first' total' frag' dc'
                       Hk Hnd Hpos ltac:(lia) Hf ltac:(lia) H)
             as [H1 [H2 [H3 [H4 [H5 [H6 H7]]]]]].
           repeat split; auto; lia.
Qed.

(** X19. What [analyze_notifications_in_window] returns is consistent:
    [cmd_first_seen] has exactly the keys of [cmd_counts], in the same
    order and without repetition; every count is at least 1; and
    [total] is the number of fragment packets plus data packets plus the
    sum of the counts, at most the number of packets given. *)
Theorem analyze_notifications_in_window_consistent (notifs : list packet) (t0 : Z)
  (window_sec : Py.float) (session_name : string) (cmd_counts : list (string * Z))
  (cmd_first_seen : list (string * Py.float)) (total frag_data_count data_count : Z) :
  analyze_notifications_in_window notifs t0 window_sec session_name
    = Ret (cmd_counts, cmd_first_seen, total, frag_data_count, data_count) ->
  map fst cmd_first_seen = map fst cmd_counts /\ NoDup (map fst cmd_counts) /\
  Forall (fun kv => 1 <= snd kv) cmd_counts /\
  total = frag_data_count + data_count + sum_counts cmd_counts /\
  0 <= frag_data_count /\ 0 <= data_count /\ total <= Z.of_nat (length notifs).
Proof.
  unfold analyze_notifications_in_window. intros H.
  destruct (analyze_loop_inv notifs t0 window_sec [] [] 0 0 0 _ _ _ _ _ eq_refl
              (NoDup_nil _) (Forall_nil _) eq_refl ltac:(lia) ltac:(lia) H)
    as [H1 [H2 [H3 [H4 [H5 [H6 H7]]]]]].
  repeat split; auto; lia.
Qed.

Lemma analyze_notifications_in_window_consistent_witness :
  exists cmd_counts cmd_first_seen total frag_data_count data_count,
  analyze_notifications_in_window notif_example 0 (Py.lit 60) "WORKING"%string
    = Ret (cmd_counts, cmd_first_seen, total, frag_data_count, data_count) /\
  map fst cmd_first_seen = map fst cmd_counts /\ NoDup (map fst cmd_counts) /\
  Forall (fun kv => 1 <= snd kv) cmd_counts /\
  total = frag_data_count + data_count + sum_counts cmd_counts /\
  0 <= frag_data_count /\ 0 <= data_count /\ total <= Z.of_nat (length notif_example).
Proof.
  destruct (analyze_notifications_in_window notif_example 0 (Py.lit 60) "WORKING"%string)
    as [[[[[c f] t] fr] d]|e] eqn:H; vm_compute in H; [|discriminate].
  exists c, f, t, fr, d. split; [reflexivity|].
  exact (analyze_notifications_in_window_consistent notif_example 0 (Py.lit 60)
           "WORKING"%string c f t fr d H).
Defined.

(** ** [count_cmd_in_timewindow] against [analyze_notifications_in_window] *)

Lemma hex_digit_value_inv (n : Z) : 0 <= n < 16 -> hex_digit_value (hex_digit n) = n.
Proof.
  intros Hn.
  assert (Hall : forallb (fun k => hex_digit_value (hex_digit k) =? k)
                   (map Z.of_nat (seq 0 16)) = true) by (vm_compute; reflexivity).
  rewrite forallb_forall in Hall.
  apply Z.eqb_eq, Hall, in_map_iff. exists (Z.to_nat n).
  split; [apply Z2Nat.id; lia|]. apply in_seq. lia.
Qed.

Lemma fmt_02X_inj (a b : Z) :
  0 <= a < 256 -> 0 <= b < 256 -> fmt_02X a = fmt_02X b -> a = b.
Proof.
  intros Ha Hb H. unfold fmt_02X in H. injection H as H1 H2.
  apply (f_equal hex_digit_value) in H1, H2.
  rewrite !hex_digit_value_inv in H1 by (split; [apply Z.div_pos|apply Z.div_lt_upper_bound]; lia).
  rewrite !hex_digit_value_inv in H2 by (apply Z.mod_pos_bound; lia).
  rewrite (Z.div_mod a 16), (Z.div_mod b 16) by lia. lia.
Qed.

Lemma cmd_key_inj (a b c d : Z) :
  0 <= a < 256 -> 0 <= b < 256 -> 0 <= c < 256 -> 0 <= d < 256 ->
  cmd_key a b = cmd_key c d -> a = c /\ b = d.
Proof.
  intros Ha Hb Hc Hd H. unfold cmd_key, fmt_02X in H. cbn in H.
  injection H as H1 H2 H3 H4.
  split; apply fmt_02X_inj; auto; unfold fmt_02X; congruence.
Qed.

Lemma sdict_get_set {V : Type} (d : list (string * V)) (k k2 : string) (v : V) :
  sdict_get (sdict_set d k v) k2 = if String.eqb k k2 then Some v else sdict_get d k2.
Proof.
  induction d as [|[k' v'] d IH]; cbn [sdict_set sdict_get].
  - reflexivity.
  - destruct (String.eqb k' k) eqn:E; cbn [sdict_get].
    + apply String.eqb_eq in E. subst k'. destruct (String.eqb k k2); reflexivity.
    + rewrite IH. destruct (String.eqb k' k2) eqn:E2; [|reflexivity].
      apply String.eqb_eq in E2. subst k2. rewrite String.eqb_sym, E. reflexivity.
Qed.

Lemma extract_command_cont_none (data : list Z) (label frag_info : string)
  (cmd : option (Z * Z)) :
  extract_command data = (label, true, cmd, frag_info) -> cmd = None.
Proof.
  unfold extract_command.
  destruct data as [|b0 [|b1 [|p0 rest]]]; try (intros H; inversion H; fail).
  destruct p0; [destruct rest as [|cat [|id rest']]| |];
    destruct (negb (Z.land b0 128 =? 0)); intros H; inversion H; reflexivity.
Qed.

Lemma extract_command_cmd_in (data : list Z) (label frag_info : string) (is_cont : bool)
  (a b : Z) :
  extract_command data = (label, is_cont, Some (a, b), frag_info) -> In a data /\ In b data.
Proof.
  unfold extract_command.
  destruct data as [|b0 [|b1 [|p0 rest]]]; try (intros H; inversion H; fail).
  destruct p0; [destruct rest as [|cat [|id rest']]| |];
    destruct (negb (Z.land b0 128 =? 0)); intros H; inversion H; subst;
    split; simpl; tauto.
Qed.


Lemma count_loop_analyze (notifs : list packet) (t0 : Z) (w : Py.float) (c0 c1 : Z) :
  Forall (fun p => Forall (fun x => 0 <= x < 256) (pdata p)) notifs ->
  0 <= c0 < 256 -> 0 <= c1 < 256 ->
  forall counts first total frag dc counts' first' total' frag' dc',
  analyze_loop notifs t0 w counts first total frag dc
    = Ret (counts', first', total', frag', dc') ->
  count_loop notifs t0 (c0, c1) w (count_or_0 counts (cmd_key c0 c1))
    = Ret (count_or_0 counts' (cmd_key c0 c1)).
Proof.
  intros Hb Hc0 Hc1. induction notifs as [|pkt rest IH];
    intros counts first total frag dc counts' first' total' frag' dc' H;
    cbn [analyze_loop count_loop] in *.
  - inversion H; subst. reflexivity.
  - inversion Hb as [|? ? Hp Hr]; subst.
    destruct (offset_seconds (ts_us pkt) t0) as [offset|e]; cbn [exc_bind] in *;
      [|discriminate].
    destruct (Py.flt w offset); [inversion H; subst; reflexivity|].
    destruct (extract_command (pdata pkt)) as [[[label is_cont] cmd] frag_info] eqn:He.
    destruct is_cont.
    + rewrite (extract_command_cont_none _ _ _ _ He). cbn [cmd_eqb].
      exact (IH Hr _ _ _ _ _ _ _ _ _ _ H).
    + destruct cmd as [[a b]|].
      * destruct (extract_command_cmd_in _ _ _ _ _ _ He) as [Ha Hb'].
        rewrite Forall_forall in Hp. pose proof (Hp a Ha) as Ha'. pose proof (Hp b Hb') as Hb''.
        rewrite <- (IH Hr _ _ _ _ _ _ _ _ _ _ H). f_equal.
        unfold count_or_0. rewrite sdict_get_set.
        cbn [cmd_eqb fst snd].
        destruct (String.eqb (cmd_key a b) (cmd_key c0 c1)) eqn:Ek.
        -- apply String.eqb_eq in Ek.
           destruct (cmd_key_inj a b c0 c1 Ha' Hb'' Hc0 Hc1 Ek) as [-> ->].
           rewrite !Z.eqb_refl. reflexivity.
        -- destruct ((a =? c0) && (b =? c1)) eqn:Eab; [|reflexivity].
           apply andb_prop in Eab as [E1 E2]. apply Z.eqb_eq in E1, E2. subst.
           rewrite String.eqb_refl in Ek. discriminate.
      * cbn [cmd_eqb]. exact (IH Hr _ _ _ _ _ _ _ _ _ _ H).
Qed.

(** X20. On packets whose data are bytes, [count_cmd_in_timewindow] with
    target [(c0, c1)] and window [window_sec] returns the count that
    [analyze_notifications_in_window] with the same window records under
    the key [f"{c0:02X}_{c1:02X}"] (0 when the key is absent): both stop at
    the first packet past the window, and fragments carry no command. *)
Theorem count_cmd_in_timewindow_analyze (notifs : list packet) (t0 : Z) (c0 c1 : Z)
  (window_sec : Py.float) (session_name : string) (cmd_counts : list (string * Z))
  (cmd_first_seen : list (string * Py.float)) (total frag_data_count data_count : Z) :
  Forall (fun p => Forall (fun x => 0 <= x < 256) (pdata p)) notifs ->
  0 <= c0 < 256 -> 0 <= c1 < 256 ->
  analyze_notifications_in_window notifs t0 window_sec session_name
    = Ret (cmd_counts, cmd_first_seen, total, frag_data_count, data_count) ->
  count_cmd_in_timewindow notifs t0 (c0, c1) window_sec
    = Ret (match sdict_get cmd_counts (cmd_key c0 c1) with Some n => n | None => 0 end).
Proof.
  intros Hb Hc0 Hc1 H. unfold count_cmd_in_timewindow.
  exact (count_loop_analyze notifs t0 window_sec c0 c1 Hb Hc0 Hc1 [] [] 0 0 0 _ _ _ _ _ H).
Qed.

Lemma count_cmd_in_timewindow_analyze_witness :
  count_cmd_in_timewindow notif_example 0 (2, 17) (Py.lit 60) = Ret 2.
Proof.
  destruct (analyze_notifications_in_window notif_example 0 (Py.lit 60) "WORKING"%string)
    as [[[[[c f] t] fr] d]|e] eqn:H; vm_compute in H; [|discriminate].
  refine (eq_trans (count_cmd_in_timewindow_analyze notif_example 0 2 17 (Py.lit 60)
                      "WORKING"%string c f t fr d _ _ _ H) _).
  - vm_compute. repeat constructor; discriminate.
  - split; [discriminate|reflexivity].
  - split; [discriminate|reflexivity].
  - inversion H. reflexivity.
Defined.

(** ** [find_first_cmd_notification] and [get_write_labels] *)

(** X21. [find_first_cmd_notification] returns [(None, None, None, None)]
    exactly when no notification's command is one of [target_cmds]; it then
    computes no offset and never raises. *)
Theorem find_first_cmd_notification_none (notifs : list packet) (t0 : Z)
  (target_cmds : list (Z * Z)) :
  find_first_cmd_notification notifs t0 target_cmds = Ret None <->
  Forall (fun pkt => let '(_, _, cmd, _) := extract_command (pdata pkt) in
                     cmd_in cmd target_cmds = false) notifs.
Proof.
  induction notifs as [|pkt rest IH]; cbn [find_first_cmd_notification].
  - split; [constructor|reflexivity].
  - rewrite Forall_cons_iff, <- IH.
    destruct (extract_command (pdata pkt)) as [[[label is_cont] cmd] frag_info].
    destruct (cmd_in cmd target_cmds).
    + split; [|intros [H _]; discriminate].
      destruct (offset_seconds (ts_us pkt) t0); cbn [exc_bind]; discriminate.
    + tauto.
Qed.

(** X22. When [find_first_cmd_notification] returns a notification, it is
    the first one of [notifs] whose command is in [target_cmds]: every
    notification before it has another command; the label and command
    returned are those [extract_command] gives for it, and the offset is
    [(pkt['ts_us'] - t0) / 1_000_000.0]. *)
Theorem find_first_cmd_notification_first (notifs : list packet) (t0 : Z)
  (target_cmds : list (Z * Z)) (offset : Py.float) (pkt : packet) (label : string)
  (cmd : option (Z * Z)) :
  find_first_cmd_notification notifs t0 target_cmds = Ret (Some (offset, pkt, label, cmd)) ->
  exists before after,
    notifs = before ++ pkt :: after /\
    Forall (fun p => let '(_, _, c, _) := extract_command (pdata p) in
                     cmd_in c target_cmds = false) before /\
    (exists is_cont frag_info, extract_command (pdata pkt) = (label, is_cont, cmd, frag_info)) /\
    cmd_in cmd target_cmds = true /\
    offset_seconds (ts_us pkt) t0 = Ret offset.
Proof.
  induction notifs as [|p rest IH]; cbn [find_first_cmd_notification]; [discriminate|].
  destruct (extract_command (pdata p)) as [[[l is_cont] c] frag_info] eqn:He.
  destruct (cmd_in c target_cmds) eqn:Ein.
  - destruct (offset_seconds (ts_us p) t0) as [o|e] eqn:Eo; cbn [exc_bind];
      [|discriminate].
    intros H. inversion H; subst.
    exists [], rest. repeat split; auto. exists is_cont, frag_info. exact He.
  - intros H. destruct (IH H) as [before [after [Hs [Hf Hrest]]]].
    exists (p :: before), after. rewrite Hs. split; [reflexivity|]. split; [|exact Hrest].
    constructor; [rewrite He; exact Ein|exact Hf].
Qed.

Lemma write_labels_loop_ok (t0 : Z) (writes : list packet) :
  Forall (fun p => - 2 ^ 1023 < ts_us p - t0 < 2 ^ 1023) writes ->
  forall seq0, exists seq',
    write_labels_loop writes t0 seq0 = Ret (seq0 ++ seq') /\
    Forall2 (fun '(off, label, size) p =>
               offset_seconds (ts_us p) t0 = Ret off /\
               (exists is_cont cmd frag_info,
                  extract_command (pdata p) = (label, is_cont, cmd, frag_info)) /\
               size = raw_size p) seq' writes.
Proof.
  induction writes as [|p rest IH]; intros Hb seq0; cbn [write_labels_loop].
  - exists []. rewrite app_nil_r. split; [reflexivity|constructor].
  - inversion Hb as [|? ? Hp Hr]; subst.
    destruct (extract_command (pdata p)) as [[[label is_cont] cmd] frag_info] eqn:He.
    destruct (float_of_int_below _ Hp) as [d Hd].
    unfold offset_seconds at 1. rewrite Hd. cbn [exc_bind].
    destruct (IH Hr (seq0 ++ [(Py.fdiv d (Py.lit 1000000), label, raw_size p)]))
      as [seq' [Hl Hf]].
    exists ((Py.fdiv d (Py.lit 1000000), label, raw_size p) :: seq').
    rewrite Hl, <- app_assoc. split; [reflexivity|].
    constructor; [|exact Hf].
    split; [unfold offset_seconds; rewrite Hd; reflexivity|].
    split; [exists is_cont, cmd, frag_info; exact He|reflexivity].
Qed.

(** X23. When the timestamps of [writes[:count]] are within [2^1023]
    microseconds of [t0], [get_write_labels] does not raise and returns one
    entry per packet of [writes[:count]], in order: its offset from [t0] in
    seconds, the label [extract_command] gives its data and its
    [raw_size]; for [count >= 0] that is [min(count, len(writes))] entries. *)
Theorem get_write_labels_entries (writes : list packet) (t0 count : Z) :
  Forall (fun p => - 2 ^ 1023 < ts_us p - t0 < 2 ^ 1023) (py_take writes count) ->
  exists seq,
    get_write_labels writes t0 count = Ret seq /\
    Forall2 (fun '(off, label, size) p =>
               offset_seconds (ts_us p) t0 = Ret off /\
               (exists is_cont cmd frag_info,
                  extract_command (pdata p) = (label, is_cont, cmd, frag_info)) /\
               size = raw_size p) seq (py_take writes count) /\
    (0 <= count -> length seq = Nat.min (Z.to_nat count) (length writes)).
Proof.
  intros Hb. destruct (write_labels_loop_ok t0 _ Hb []) as [seq [Hl Hf]].
  exists seq. unfold get_write_labels. rewrite Hl. split; [reflexivity|].
  split; [exact Hf|].
  intros Hc. rewrite (Forall2_length Hf). unfold py_take.
  rewrite (proj2 (Z.leb_le 0 count) Hc). apply length_firstn.
Qed.

Lemma find_first_cmd_notification_first_witness :
  find_first_cmd_notification notif_example 0 [(2, 9)]
    = Ret (Some (S754_finite false 4925812092436480 (-46),
                 notif_at 70000000 [0; 5; 0; 2; 9], "CONFIG"%string, Some (2, 9))) /\
  exists before after,
    notif_example = before ++ notif_at 70000000 [0; 5; 0; 2; 9] :: after /\
    length before = 4%nat.
Proof.
  assert (H : find_first_cmd_notification notif_example 0 [(2, 9)]
                = Ret (Some (S754_finite false 4925812092436480 (-46),
                             notif_at 70000000 [0; 5; 0; 2; 9], "CONFIG"%string, Some (2, 9))))
    by (vm_compute; reflexivity).
  split; [exact H|].
  destruct (find_first_cmd_notification_first notif_example 0 [(2, 9)] _ _ _ _ H)
    as [before [after [Hs _]]].
  exists before, after. split; [exact Hs|].
  unfold notif_example in Hs.
  do 4 (destruct before as [|? before]; [discriminate Hs|]; injection Hs as _ Hs).
  destruct before as [|? before]; [reflexivity|].
  injection Hs as _ Hs. destruct before; discriminate Hs.
Defined.

Lemma get_write_labels_entries_witness :
  Forall (fun p => - 2 ^ 1023 < ts_us p - 0 < 2 ^ 1023) (py_take notif_example 3) /\
  exists seq, get_write_labels notif_example 0 3 = Ret seq /\ length seq = 3%nat.
Proof.
  assert (Hb : Forall (fun p => - 2 ^ 1023 < ts_us p - 0 < 2 ^ 1023) (py_take notif_example 3)).
  { cbn. repeat constructor; apply Z.ltb_lt; vm_compute; reflexivity. }
  split; [exact Hb|].
  destruct (get_write_labels_entries notif_example 0 3 Hb) as [seq [Hg [_ Hl]]].
  exists seq. split; [exact Hg|]. rewrite Hl; [reflexivity|]. discriminate.
Defined.
